(** * FiFuFa: the single-view client of the fun-facts service

    A shallow embedding of [fifufa-ui/src/App.jsx]: the view state held by
    the [useState] hooks, the three asynchronous handlers [fetchFacts],
    [fetchMoreFacts] and [getRandomWord], the reshaping of the response
    payload, and the [disabled] attributes of the three buttons.

    JavaScript strings are sequences of UTF-16 code units; the built-ins the
    handlers call ([trim], [includes], [split] with a regular expression) are
    modelled on code units, as ECMAScript defines them. *)

From Stdlib Require Import Ascii String.
From Stdlib Require Import List NArith Arith Bool Lia.
Import ListNotations.

Set Implicit Arguments.

(* ================================================================== *)
(** ** JavaScript strings *)
(* ================================================================== *)

Module JS.

(** A string is the list of its UTF-16 code units. *)
Definition jsstring := list N.

(** *** String literals

    The literals of [App.jsx] are written here as they stand in the source
    (UTF-8 in the file) and decoded to code units. *)

Definition cont (b : N) : N := N.land b 0x3F.

Fixpoint decode_utf8 (bs : list N) : list N :=
  match bs with
  | [] => []
  | b0 :: r0 =>
    if (b0 <? 0x80)%N then b0 :: decode_utf8 r0
    else if (b0 <? 0xE0)%N then
      match r0 with
      | b1 :: r1 =>
        (N.shiftl (N.land b0 0x1F) 6 + cont b1)%N :: decode_utf8 r1
      | _ => []
      end
    else if (b0 <? 0xF0)%N then
      match r0 with
      | b1 :: b2 :: r2 =>
        (N.shiftl (N.land b0 0x0F) 12 + N.shiftl (cont b1) 6 + cont b2)%N
          :: decode_utf8 r2
      | _ => []
      end
    else
      match r0 with
      | b1 :: b2 :: b3 :: r3 =>
        (N.shiftl (N.land b0 0x07) 18 + N.shiftl (cont b1) 12
           + N.shiftl (cont b2) 6 + cont b3)%N :: decode_utf8 r3
      | _ => []
      end
  end.

(** A code point above the basic plane is a surrogate pair. *)
Definition code_units (cp : N) : list N :=
  if (cp <? 0x10000)%N then [cp]
  else let c := (cp - 0x10000)%N in
       [(0xD800 + N.shiftr c 10)%N; (0xDC00 + N.land c 0x3FF)%N].

Definition lit (s : string) : jsstring :=
  flat_map code_units
    (decode_utf8 (map N_of_ascii (list_ascii_of_string s))).

(** *** Character classes *)

(** ECMAScript WhiteSpace and LineTerminator: what [trim] strips and what
    [\s] matches. *)
Definition is_space (c : N) : bool :=
  ((c =? 0x09) || (c =? 0x0A) || (c =? 0x0B) || (c =? 0x0C) || (c =? 0x0D)
   || (c =? 0x20) || (c =? 0xA0) || (c =? 0x1680)
   || ((0x2000 <=? c) && (c <=? 0x200A))
   || (c =? 0x2028) || (c =? 0x2029) || (c =? 0x202F) || (c =? 0x205F)
   || (c =? 0x3000) || (c =? 0xFEFF))%N.

(** [\d] *)
Definition is_digit (c : N) : bool := ((0x30 <=? c) && (c <=? 0x39))%N.

(** [\.] *)
Definition is_dot (c : N) : bool := (c =? 0x2E)%N.

(** *** [String.prototype.trim] *)

Fixpoint trimStart (s : jsstring) : jsstring :=
  match s with
  | c :: s' => if is_space c then trimStart s' else s
  | [] => []
  end.

Definition trimEnd (s : jsstring) : jsstring := rev (trimStart (rev s)).

Definition trim (s : jsstring) : jsstring := trimEnd (trimStart s).

(** *** [String.prototype.includes] *)

Fixpoint starts_with (pat s : jsstring) : bool :=
  match pat, s with
  | [], _ => true
  | p :: pat', c :: s' => (p =? c)%N && starts_with pat' s'
  | _ :: _, [] => false
  end.

Fixpoint includes (s pat : jsstring) : bool :=
  starts_with pat s
  || match s with
     | [] => false
     | _ :: s' => includes s' pat
     end.

(** Truthiness of a string: [!s] holds of the empty string only. *)
Definition falsy (s : jsstring) : bool :=
  match s with [] => true | _ => false end.

(** [a || b] on a possibly missing string [a]. *)
Definition or_else (a : option jsstring) (b : jsstring) : jsstring :=
  match a with
  | Some s => if falsy s then b else s
  | None => b
  end.

End JS.

Import JS.

(* ================================================================== *)
(** ** Regular expressions and [String.prototype.split] *)
(* ================================================================== *)

Module Regex.

(** The fragment of the pattern language that [App.jsx] uses: a sequence of
    character classes, each matched once or, under a greedy [+], one or more
    times. *)
Inductive item :=
| One (cls : N -> bool)
| Many1 (cls : N -> bool).

Definition regex := list item.

(** Greedy [cls+] followed by the continuation [k]: take one more character
    first, and fall back to [k] where the longer attempt fails. *)
Fixpoint many1 (cls : N -> bool) (k : jsstring -> nat -> option nat)
    (s : jsstring) (n : nat) : option nat :=
  match s with
  | c :: s' =>
    if cls c then
      match many1 cls k s' (S n) with
      | Some e => Some e
      | None => k s' (S n)
      end
    else None
  | [] => None
  end.

(** A match anchored at the start of [s] ([n] code units are consumed so
    far); the result is the number of code units the match spans. *)
Fixpoint exec (re : regex) (s : jsstring) (n : nat) : option nat :=
  match re with
  | [] => Some n
  | One cls :: re' =>
    match s with
    | c :: s' => if cls c then exec re' s' (S n) else None
    | [] => None
    end
  | Many1 cls :: re' => many1 cls (exec re') s n
  end.

(** The loop of [RegExp.prototype[Symbol.split]] (no limit, no capture
    groups). [cur] is the pending segment S[p..q), [rest] is S[q..]. A match
    at q that ends at p is skipped; any other match closes the segment and
    moves both p and q to its end. The loop runs at most twice for each
    code unit of [rest]; [fuel] counts its iterations, and [split] supplies
    enough of it, so that the branch for no fuel is never taken. *)
Fixpoint split_loop (re : regex) (fuel : nat) (cur rest : jsstring)
    : list jsstring :=
  match rest with
  | [] => [cur]
  | c :: rest' =>
    match fuel with
    | 0 => [cur ++ rest]
    | S fuel' =>
      match exec re rest 0 with
      | None => split_loop re fuel' (cur ++ [c]) rest'
      | Some e =>
        if (e =? 0) && falsy cur
        then split_loop re fuel' (cur ++ [c]) rest'
        else cur :: split_loop re fuel' [] (skipn e rest)
      end
    end
  end.

Definition split (re : regex) (s : jsstring) : list jsstring :=
  match s with
  | [] => match exec re [] 0 with Some _ => [] | None => [[]] end
  | _ => split_loop re (2 * length s) [] s
  end.

End Regex.

Import Regex.

(** [/\d+\.\s/] *)
Definition numbering : regex := [Many1 is_digit; One is_dot; One is_space].

(* ================================================================== *)
(** ** The view state and the HTTP boundary *)
(* ================================================================== *)

(** The six [useState] cells of [App]. *)
Record State := mkState {
  topic : jsstring;
  facts : list jsstring;
  loading : bool;
  loadingMore : bool;
  loadingRandomWord : bool;
  error : jsstring
}.

(** [useState] initial values. *)
Definition initial : State := mkState (lit "") [] false false false (lit "").

(** A state setter call. [setFacts] is called with a value and, in
    [fetchMoreFacts], with an updater function of the previous value.
    [Console] stands for [console.error] and [console.log]. *)
Inductive action :=
| SetTopic (v : jsstring)
| SetFacts (v : list jsstring)
| UpdateFacts (f : list jsstring -> list jsstring)
| SetLoading (v : bool)
| SetLoadingMore (v : bool)
| SetLoadingRandomWord (v : bool)
| SetError (v : jsstring)
| Console.

Definition apply (a : action) (st : State) : State :=
  match a with
  | SetTopic v =>
    mkState v (facts st) (loading st) (loadingMore st)
            (loadingRandomWord st) (error st)
  | SetFacts v =>
    mkState (topic st) v (loading st) (loadingMore st)
            (loadingRandomWord st) (error st)
  | UpdateFacts f =>
    mkState (topic st) (f (facts st)) (loading st) (loadingMore st)
            (loadingRandomWord st) (error st)
  | SetLoading v =>
    mkState (topic st) (facts st) v (loadingMore st)
            (loadingRandomWord st) (error st)
  | SetLoadingMore v =>
    mkState (topic st) (facts st) (loading st) v
            (loadingRandomWord st) (error st)
  | SetLoadingRandomWord v =>
    mkState (topic st) (facts st) (loading st) (loadingMore st) v (error st)
  | SetError v =>
    mkState (topic st) (facts st) (loading st) (loadingMore st)
            (loadingRandomWord st) v
  | Console => st
  end.

(** The argument of [JSON.stringify] in a request body is an object
    literal: its fields, in order. *)
Inductive json :=
| JString (s : jsstring)
| JBool (b : bool).

Definition json_object := list (string * json).

Inductive http_method := GET | POST.

Record request := mkRequest {
  url : string;
  method : http_method;
  headers : list (string * string);
  body : option json_object
}.

(** Field lookup in an object. *)
Fixpoint field (name : string) (fields : json_object) : option json :=
  match fields with
  | [] => None
  | (k, v) :: fields' =>
    if String.eqb k name then Some v else field name fields'
  end.

Definition body_field (name : string) (r : request) : option json :=
  match body r with
  | Some fields => field name fields
  | None => None
  end.

(** [data.facts]: an array of strings, a string, or anything else. *)
Inductive facts_field :=
| FactsArray (l : list jsstring)
| FactsString (s : jsstring)
| FactsOther.

(** The parsed response body, at the types of the two endpoints. *)
Record payload := mkPayload {
  data_error : option jsstring;
  data_facts : facts_field;
  data_word : jsstring;
  data_remaining : N
}.

(** What [await fetch(...)] followed by [await response.json()] yields:
    either promise rejects with an error carrying a message, or the
    response arrives with its [ok] flag and its parsed body. *)
Inductive outcome :=
| Rejected (message : jsstring)
| Resolved (ok : bool) (data : payload).

(** An asynchronous handler: setter calls in program order, with one
    continuation per awaited request. *)
Inductive prog :=
| Return
| Do (a : action) (k : prog)
| Await (r : request) (k : outcome -> prog).

Notation "a ;; k" := (Do a k) (at level 61, right associativity).

Inductive event :=
| Did (a : action)
| Sent (r : request).

Fixpoint trace (net : request -> outcome) (p : prog) : list event :=
  match p with
  | Return => []
  | Do a k => Did a :: trace net k
  | Await r k => Sent r :: trace net (k (net r))
  end.

Definition step (st : State) (e : event) : State :=
  match e with
  | Did a => apply a st
  | Sent _ => st
  end.

(** The state a handler leaves behind. *)
Definition run (net : request -> outcome) (p : prog) (st : State) : State :=
  fold_left step (trace net p) st.

(** The requests of a trace, each with the state it is issued in. *)
Fixpoint sent_in (tr : list event) (st : State) : list (request * State) :=
  match tr with
  | [] => []
  | Did a :: tr' => sent_in tr' (apply a st)
  | Sent r :: tr' => (r, st) :: sent_in tr' st
  end.

Definition requests (net : request -> outcome) (p : prog) (st : State)
    : list (request * State) :=
  sent_in (trace net p) st.

(* ================================================================== *)
(** ** The handlers of [App] *)
(* ================================================================== *)

(** [const data = await response.json();
     if (!response.ok) throw new Error(data.error || fallback);] *)
Definition ok_or_throw (fallback : jsstring) (o : outcome)
    : jsstring + payload :=
  match o with
  | Rejected message => inl message
  | Resolved ok data =>
    if negb ok then inl (or_else (data_error data) fallback) else inr data
  end.

(** The reshaping of [data.facts], the same in both handlers. *)
Definition cleanFacts (f : facts_field) : list jsstring :=
  match f with
  | FactsArray l => l
  | FactsString s =>
    filter (fun s => 0 <? length s) (map trim (split numbering s))
  | FactsOther => []
  end.

Definition api_facts : string := "http://localhost:5000/api/facts".
Definition api_random_words : string :=
  "http://localhost:5000/api/random-words".
Definition json_headers : list (string * string) :=
  [("Content-Type", "application/json")]%string.

Definition rate_limit_facts : list jsstring :=
  [lit "⏰ Too many requests! Please wait a moment and try again."].
Definition server_issue_facts : list jsstring :=
  [lit "🔧 Server issue detected. Try a different topic or wait a few minutes."].
Definition fallback_facts : list jsstring :=
  [lit "🙏 Sorry, we couldn't fetch fun facts right now.";
   lit "📡 Possible reason: connectivity issue or API credit limit reached.";
   lit "💡 Please try again in a few minutes!"].
Definition more_failed_fact : jsstring :=
  lit "🙏 Sorry, couldn't fetch more facts.".
Definition required_error : jsstring := lit "Please enter a topic first!".
Definition too_short_error : jsstring :=
  lit "Topic too short! Please enter at least 2 characters.".
Definition too_long_error : jsstring :=
  lit "Topic too long! Please keep it under 50 characters.".
Definition random_failed_error : jsstring :=
  lit "Failed to get random topic. Please try again.".

(** The [catch] block of [fetchFacts]. *)
Definition facts_for_error (message : jsstring) : list jsstring :=
  if includes message (lit "429")
     || includes message (lit "Too many requests")
  then rate_limit_facts
  else if includes message (lit "500")
          || includes message (lit "Something went wrong")
  then server_issue_facts
  else fallback_facts.

Definition fetchFacts (st : State) : prog :=
  let sanitizedTopic := trim (topic st) in
  if falsy sanitizedTopic then SetError required_error ;; Return
  else if length sanitizedTopic <? 2 then SetError too_short_error ;; Return
  else if 50 <? length sanitizedTopic then SetError too_long_error ;; Return
  else
    SetError (lit "") ;;
    SetLoading true ;;
    SetFacts [] ;;
    Await (mkRequest api_facts POST json_headers
             (Some [("topic"%string, JString sanitizedTopic)]))
      (fun o =>
         let finally := SetLoading false ;; Return in
         match ok_or_throw (lit "Failed to fetch facts") o with
         | inr data => SetFacts (cleanFacts (data_facts data)) ;; finally
         | inl message =>
           Console ;; SetFacts (facts_for_error message) ;; finally
         end).

Definition fetchMoreFacts (st : State) : prog :=
  if falsy (topic st) then Return
  else
    SetLoadingMore true ;;
    Await (mkRequest api_facts POST json_headers
             (Some [("topic"%string, JString (topic st));
                    ("more"%string, JBool true)]))
      (fun o =>
         let finally := SetLoadingMore false ;; Return in
         match ok_or_throw (lit "Failed to fetch more facts") o with
         | inr data =>
           let cleanFacts := cleanFacts (data_facts data) in
           UpdateFacts (fun prev => prev ++ cleanFacts) ;; finally
         | inl message =>
           Console ;;
           UpdateFacts (fun prev => prev ++ [more_failed_fact]) ;; finally
         end).

Definition getRandomWord (st : State) : prog :=
  SetLoadingRandomWord true ;;
  Await (mkRequest api_random_words GET [] None)
    (fun o =>
       let finally := SetLoadingRandomWord false ;; Return in
       match ok_or_throw (lit "Failed to get random word") o with
       | inr data =>
         SetTopic (data_word data) ;; SetError (lit "") ;; Console ;; finally
       | inl message => Console ;; SetError random_failed_error ;; finally
       end).

(** *** The [disabled] attributes of the buttons *)

(** [disabled={loading || !topic.trim()}] *)
Definition submit_disabled (st : State) : bool :=
  loading st || falsy (trim (topic st)).

(** [disabled={loadingMore}]; the button is rendered for one to five
    facts. *)
Definition more_rendered (st : State) : bool :=
  (length (facts st) <=? 5) && (0 <? length (facts st)).

Definition more_disabled (st : State) : bool := loadingMore st.

(** [disabled={loadingRandomWord}] *)
Definition random_disabled (st : State) : bool := loadingRandomWord st.

(* ================================================================== *)
(** ** Running the handlers *)
(* ================================================================== *)

Arguments lit : simpl never.

(** The three requests the view issues. *)
Definition facts_request (sanitizedTopic : jsstring) : request :=
  mkRequest api_facts POST json_headers
    (Some [("topic"%string, JString sanitizedTopic)]).

Definition more_request (topic : jsstring) : request :=
  mkRequest api_facts POST json_headers
    (Some [("topic"%string, JString topic); ("more"%string, JBool true)]).

Definition random_request : request :=
  mkRequest api_random_words GET [] None.

(** The state a handler leaves behind, started in the state it closes
    over. *)
Definition handle (h : State -> prog) (net : request -> outcome)
    (st : State) : State :=
  run net (h st) st.

Definition issued (h : State -> prog) (net : request -> outcome)
    (st : State) : list (request * State) :=
  requests net (h st) st.

(** Builders for states, services and response bodies. *)
Definition with_topic (t : jsstring) (fs : list jsstring) : State :=
  mkState t fs false false false (lit "").

Definition serve (o : outcome) : request -> outcome := fun _ => o.

Definition facts_payload (f : facts_field) : payload :=
  mkPayload None f (lit "") 0.

Definition word_payload (w : jsstring) (n : N) : payload :=
  mkPayload None FactsOther w n.

Definition error_payload (e : jsstring) : payload :=
  mkPayload (Some e) FactsOther (lit "") 0.

(** The facts [fetchFacts] settles on, by the outcome of its request. *)
Definition facts_after (o : outcome) : list jsstring :=
  match ok_or_throw (lit "Failed to fetch facts") o with
  | inr data => cleanFacts (data_facts data)
  | inl message => facts_for_error message
  end.

(** The facts [fetchMoreFacts] adds, by the outcome of its request. *)
Definition more_after (o : outcome) : list jsstring :=
  match ok_or_throw (lit "Failed to fetch more facts") o with
  | inr data => cleanFacts (data_facts data)
  | inl _ => [more_failed_fact]
  end.

(* ================================================================== *)
(** ** Splitting a numbered list, as the specification words it *)
(* ================================================================== *)

(** One or more digits followed by a period and a whitespace character. *)
Definition separator (sep : jsstring) : Prop :=
  exists ds c,
    ds <> [] /\ Forall (fun d => is_digit d = true) ds /\
    is_space c = true /\ sep = ds ++ [0x2E%N; c].

(** [split_on s segs]: [segs] are the pieces of [s] between the
    occurrences of a separator, taken from left to right, each occurrence
    starting at the first place after the previous one where a separator
    starts. *)
Inductive split_on : jsstring -> list jsstring -> Prop :=
| split_whole s :
    (forall pre sep post, s = pre ++ sep ++ post -> ~ separator sep) ->
    split_on s [s]
| split_cut s pre sep post segs :
    s = pre ++ sep ++ post ->
    separator sep ->
    (forall pre' sep' post',
        s = pre' ++ sep' ++ post' -> separator sep' ->
        length pre <= length pre') ->
    split_on post segs ->
    split_on s (pre :: segs).

(** No whitespace at either end. *)
Definition no_edge_space (t : jsstring) : Prop :=
  (forall c t', t = c :: t' -> is_space c = false) /\
  (forall c t', t = t' ++ [c] -> is_space c = false).

(** [stripped s t]: [t] is [s] without its surrounding whitespace. *)
Definition stripped (s t : jsstring) : Prop :=
  exists l r,
    s = l ++ t ++ r /\
    Forall (fun c => is_space c = true) l /\
    Forall (fun c => is_space c = true) r /\
    no_edge_space t.

(** The reshaping of a string payload in the words of the specification:
    split, trim every segment, drop the segments that are empty then. *)
Definition reshaped (s : jsstring) (out : list jsstring) : Prop :=
  exists segs ts,
    split_on s segs /\ Forall2 stripped segs ts /\
    out = filter (fun t => negb (falsy t)) ts.

(** What the specification says of [data.facts]: a string is split, trimmed
    and cleared of empty segments, an array is taken as it is. *)
Definition payload_reshaped (f : facts_field) (out : list jsstring) : Prop :=
  match f with
  | FactsString s => reshaped s out
  | FactsArray l => out = l
  | FactsOther => True
  end.

(** Whitespace only. *)
Definition spaces (l : jsstring) : Prop :=
  Forall (fun c => is_space c = true) l.

(** No whitespace in front. *)
Definition starts_black (t : jsstring) : Prop :=
  forall c t', t = c :: t' -> is_space c = false.

(** A fact kept by the reshaping: not empty, no whitespace at its ends. *)
Definition tidy (t : jsstring) : Prop := t <> [] /\ no_edge_space t.

(* ================================================================== *)
(** ** The keyboard handler and the rendered view *)
(* ================================================================== *)

(** [a === b] on strings. *)
Fixpoint str_eqb (a b : jsstring) : bool :=
  match a, b with
  | [], [] => true
  | x :: a', y :: b' => (x =? y)%N && str_eqb a' b'
  | _, _ => false
  end.

(** [handleKeyPress]: Enter starts [fetchFacts] (not awaited), Escape
    clears the topic and the error message, any other key does nothing. *)
Definition handleKeyPress (key : jsstring) (st : State) : prog :=
  if str_eqb key (lit "Enter") then fetchFacts st
  else if str_eqb key (lit "Escape") then
    SetTopic (lit "") ;; SetError (lit "") ;; Return
  else Return.

(** [maxLength={50}] on the topic input. *)
Definition maxLength : nat := 50.

(** [{error && (...)}]: the alert above the input. *)
Definition error_shown (st : State) : bool := negb (falsy (error st)).

(** [borderColor: error ? "#ef4444" : "#e5e7eb"] *)
Definition input_border (st : State) : string :=
  if falsy (error st) then "#e5e7eb"%string else "#ef4444"%string.

(** [{facts.length > 0 && (...)}]: the panel of facts; the More button
    lives inside it. *)
Definition facts_panel_rendered (st : State) : bool :=
  0 <? length (facts st).

Definition more_button_rendered (st : State) : bool :=
  facts_panel_rendered st && more_rendered st.

(** [colors.primary] and [colors.yellow]. *)
Inductive colour := Primary | Yellow.

(** One card of [facts.map((fact, idx) => ...)]: its React key, the number
    in its badge, the colour of its left border and badge, its text. *)
Record fact_card := mkCard {
  card_key : nat;
  card_badge : nat;
  card_accent : colour;
  card_text : jsstring
}.

Fixpoint render_from (idx : nat) (fs : list jsstring) : list fact_card :=
  match fs with
  | [] => []
  | fact :: fs' =>
    mkCard idx (idx + 1) (if idx mod 2 =? 0 then Primary else Yellow) fact
      :: render_from (S idx) fs'
  end.

Definition render_facts (fs : list jsstring) : list fact_card :=
  render_from 0 fs.

(** [pat] occurs in [s]. *)
Definition contains (s pat : jsstring) : Prop :=
  exists pre post, s = pre ++ pat ++ post.

(** A separator starts somewhere in [s]. *)
Fixpoint has_separator (s : jsstring) : bool :=
  match exec numbering s 0 with
  | Some _ => true
  | None =>
    match s with
    | [] => false
    | _ :: s' => has_separator s'
    end
  end.

(** No separator occurs in [s]. *)
Definition unnumbered (s : jsstring) : Prop :=
  forall pre sep post, s = pre ++ sep ++ post -> ~ separator sep.

(* ================================================================== *)
(** ** Sample states and services *)
(* ================================================================== *)

(** Closed conjunctions of equations are settled by evaluation. *)
Ltac conj_step :=
  match goal with
  | |- _ /\ _ => split; [vm_compute; reflexivity|]
  end.

(** Sample inputs. *)
Definition stale : State := with_topic (lit "cats") [lit "Cats purr."].
Definition padded : State := with_topic (lit "  cats ") [lit "Cats purr."].
Definition blank : State := with_topic (lit "   ") [lit "Cats purr."].
Definition one_letter : State := with_topic (lit "a") [].
Definition overlong : State :=
  with_topic
    (lit "the quick brown fox jumps over the lazy dog many times") [].
Definition untouched : State :=
  mkState (lit "") [lit "Cats purr."] false true false (lit "kept").

Definition dogs : request -> outcome :=
  serve (Resolved true (facts_payload (FactsArray [lit "Dogs bark."]))).
Definition numbered : request -> outcome :=
  serve (Resolved true
           (facts_payload
              (FactsString (lit "1. Cats purr.  2. Cats nap. 3.  ")))).
Definition busy : request -> outcome :=
  serve (Resolved false (error_payload (lit "429 Too many requests"))).
Definition broken : request -> outcome :=
  serve (Resolved false (error_payload (lit "HTTP 500"))).
Definition offline : request -> outcome :=
  serve (Rejected (lit "Failed to fetch")).
Definition ninja : request -> outcome :=
  serve (Resolved true (word_payload (lit "ninja") 41)).

Definition submitting : State :=
  mkState (lit "cats") [] true false false (lit "").
Definition six_facts : State :=
  with_topic (lit "cats")
    [lit "one"; lit "two"; lit "three"; lit "four"; lit "five"; lit "six"].
Definition silent : request -> outcome :=
  serve (Resolved false (facts_payload FactsOther)).
Definition hushed : request -> outcome :=
  serve (Resolved false (error_payload (lit ""))).
Definition plain : request -> outcome :=
  serve (Resolved true (facts_payload (FactsString (lit "  Cats purr.  ")))).

(* ================================================================== *)
(** ** The built-ins and the handlers on sample inputs *)
(* ================================================================== *)

Example lit_ascii : lit "429" = [0x34; 0x32; 0x39]%N.
Proof. reflexivity. Qed.

Example lit_alarm_clock : lit "⏰" = [0x23F0]%N.
Proof. reflexivity. Qed.

Example lit_wrench : lit "🔧" = [0xD83D; 0xDD27]%N.
Proof. reflexivity. Qed.

Example trim_both_ends :
  trim (lit "  a b" ++ [0x0A; 0x3000]%N) = lit "a b".
Proof. reflexivity. Qed.

Example includes_inside : includes (lit "HTTP 429 error") (lit "429") = true.
Proof. reflexivity. Qed.

Example exec_numbering : exec numbering (lit "12. ab") 0 = Some 4.
Proof. reflexivity. Qed.

Example exec_numbering_no_space : exec numbering (lit "12.ab") 0 = None.
Proof. reflexivity. Qed.

Example split_numbered_list :
  split numbering (lit "1. Cats purr. 2. Dogs bark.")
  = [lit ""; lit "Cats purr. "; lit "Dogs bark."].
Proof. reflexivity. Qed.

Example split_empty : split numbering (lit "") = [lit ""].
Proof. reflexivity. Qed.

Example split_trailing : split numbering (lit "a 1. ") = [lit "a "; lit ""].
Proof. reflexivity. Qed.

Example fetchFacts_numbered_list :
  handle fetchFacts
    (serve (Resolved true
              (facts_payload (FactsString (lit "1. Cats purr. 2. Cats nap.")))))
    (with_topic (lit " cats ") [lit "stale"])
  = with_topic (lit " cats ") [lit "Cats purr."; lit "Cats nap."].
Proof. reflexivity. Qed.

Example fetchFacts_sends_trimmed :
  map fst (issued fetchFacts (serve (Rejected (lit "Failed to fetch")))
             (with_topic (lit " cats ") []))
  = [facts_request (lit "cats")].
Proof. reflexivity. Qed.

Example fetchMoreFacts_appends :
  facts (handle fetchMoreFacts
           (serve (Resolved true (facts_payload (FactsArray [lit "b"]))))
           (with_topic (lit "cats") [lit "a"]))
  = [lit "a"; lit "b"].
Proof. reflexivity. Qed.

Example getRandomWord_sets_topic :
  handle getRandomWord (serve (Resolved true (word_payload (lit "ninja") 7)))
    (mkState (lit "") [] false false false (lit "old error"))
  = with_topic (lit "ninja") [].
Proof. reflexivity. Qed.

(* ================================================================== *)
(** ** Lists *)
(* ================================================================== *)

Lemma app_same_length (A : Type) (a a' b b' : list A) :
  length a = length a' -> a ++ b = a' ++ b' -> a = a' /\ b = b'.
Proof.
  revert a'. induction a as [|x a IH]; intros [|x' a'] L E;
    simpl in *; try discriminate; auto.
  injection E as -> E. injection L as L.
  destruct (IH _ L E) as [-> ->]. auto.
Qed.

(* ================================================================== *)
(** ** The matcher finds exactly the separators *)
(* ================================================================== *)

Section Matcher.

Variable cls : N -> bool.
Variable k : jsstring -> nat -> option nat.

(** Whatever [cls+] followed by [k] matches is a non-empty run of [cls]
    followed by a match of [k]. *)
Lemma many1_sound (s : jsstring) :
  forall n e,
    many1 cls k s n = Some e ->
    exists ds post,
      ds <> [] /\ Forall (fun d => cls d = true) ds /\
      s = ds ++ post /\ k post (n + length ds) = Some e.
Proof.
  induction s as [|a s IH]; intros n e H; simpl in H; [discriminate|].
  destruct (cls a) eqn:Ha; [|discriminate].
  destruct (many1 cls k s (S n)) as [e'|] eqn:Hm.
  - injection H as <-.
    destruct (IH _ _ Hm) as (ds & post & _ & Hds & -> & Hk).
    exists (a :: ds), post.
    repeat split; auto; [discriminate|].
    simpl. now replace (n + S (length ds)) with (S n + length ds) by lia.
  - exists [a], s.
    repeat split; auto; [discriminate|].
    simpl. now replace (n + 1) with (S n) by lia.
Qed.

(** Greedy: a run that cannot be extended is taken whole. *)
Lemma many1_complete (ds : jsstring) :
  forall post n e,
    ds <> [] -> Forall (fun d => cls d = true) ds ->
    match post with c :: _ => cls c = false | [] => True end ->
    k post (n + length ds) = Some e ->
    many1 cls k (ds ++ post) n = Some e.
Proof.
  induction ds as [|d ds IH]; intros post n e Hne Hds Hpost Hk;
    [congruence|].
  inversion Hds as [|? ? Hd Hds']; subst.
  simpl. rewrite Hd.
  destruct ds as [|d' ds].
  - simpl in *. replace (n + 1) with (S n) in Hk by lia.
    destruct post as [|c post]; simpl; [exact Hk|].
    now rewrite Hpost.
  - rewrite (IH post (S n) e); auto; [discriminate|].
    simpl in *. now replace (S (n + S (length ds)))
      with (n + S (S (length ds))) by lia.
Qed.

End Matcher.

Lemma exec_period_space (s : jsstring) (n e : nat) :
  exec [One is_dot; One is_space] s n = Some e <->
  exists c post, s = 0x2E%N :: c :: post /\ is_space c = true /\ e = S (S n).
Proof.
  split.
  - destruct s as [|d [|c post]]; simpl; try discriminate.
    + destruct (is_dot d); discriminate.
    + destruct (is_dot d) eqn:Hd; [|discriminate].
      destruct (is_space c) eqn:Hc; [|discriminate].
      intros [= <-]. apply N.eqb_eq in Hd. subst d. now exists c, post.
  - intros (c & post & -> & Hc & ->). simpl. now rewrite Hc.
Qed.

(** A match of [numbering] at the start of [s] is a separator there. *)
Lemma exec_numbering_sound (s : jsstring) (e : nat) :
  exec numbering s 0 = Some e ->
  exists sep post, s = sep ++ post /\ separator sep /\ length sep = e.
Proof.
  intros H. apply many1_sound in H.
  destruct H as (ds & post & Hne & Hds & -> & Hk).
  apply exec_period_space in Hk. destruct Hk as (c & post' & -> & Hc & ->).
  exists (ds ++ [0x2E%N; c]), post'. split; [|split].
  - now rewrite <- app_assoc.
  - now exists ds, c.
  - rewrite length_app. simpl. lia.
Qed.

(** A separator at the start of [s] is matched, whole. *)
Lemma exec_numbering_complete (sep post : jsstring) :
  separator sep -> exec numbering (sep ++ post) 0 = Some (length sep).
Proof.
  intros (ds & c & Hne & Hds & Hc & ->).
  rewrite <- app_assoc. unfold numbering, exec.
  fold (exec [One is_dot; One is_space]).
  apply many1_complete; auto; [reflexivity|].
  apply exec_period_space. exists c, post.
  repeat split; auto. rewrite length_app. simpl. lia.
Qed.

Lemma separator_nonempty (sep : jsstring) : separator sep -> 3 <= length sep.
Proof.
  intros (ds & c & Hne & _ & _ & ->).
  rewrite length_app. simpl. destruct ds; [congruence | simpl; lia].
Qed.

(** At a given place there is at most one separator. *)
Lemma separator_unique (sep sep' post post' : jsstring) :
  separator sep -> separator sep' ->
  sep ++ post = sep' ++ post' -> sep = sep' /\ post = post'.
Proof.
  intros H H' E.
  pose proof (exec_numbering_complete post H) as X.
  pose proof (exec_numbering_complete post' H') as X'.
  rewrite E, X' in X. injection X as L.
  now apply app_same_length.
Qed.

(* ================================================================== *)
(** ** [split] cuts at the separators, from left to right *)
(* ================================================================== *)

Lemma split_loop_step (re : regex) (fuel : nat) (cur : jsstring) (c : N)
    (rest : jsstring) :
  split_loop re (S fuel) cur (c :: rest)
  = match exec re (c :: rest) 0 with
    | None => split_loop re fuel (cur ++ [c]) rest
    | Some e =>
      if (e =? 0) && falsy cur
      then split_loop re fuel (cur ++ [c]) rest
      else cur :: split_loop re fuel [] (skipn e (c :: rest))
    end.
Proof. reflexivity. Qed.

Lemma split_loop_end (re : regex) (fuel : nat) (cur : jsstring) :
  split_loop re fuel cur [] = [cur].
Proof. destruct fuel; reflexivity. Qed.

(** A string with no separator at or after the end of [cur] is one
    segment. *)
Lemma split_on_segment (cur : jsstring) :
  (forall pre sep post,
      cur = pre ++ sep ++ post -> separator sep ->
      length cur <= length pre) ->
  split_on cur [cur].
Proof.
  intros Hleft. apply split_whole. intros pre sep post E Hsep.
  pose proof (Hleft _ _ _ E Hsep) as L.
  apply separator_nonempty in Hsep.
  apply (f_equal (@length N)) in E. rewrite !length_app in E. lia.
Qed.

(** The loop invariant: no separator starts inside the pending segment. *)
Lemma split_loop_spec (fuel : nat) :
  forall cur rest,
    length rest <= fuel ->
    (forall pre sep post,
        cur ++ rest = pre ++ sep ++ post -> separator sep ->
        length cur <= length pre) ->
    split_on (cur ++ rest) (split_loop numbering fuel cur rest).
Proof.
  induction fuel as [|fuel IH]; intros cur rest Hfuel Hleft.
  - destruct rest; [|simpl in Hfuel; lia].
    rewrite split_loop_end, app_nil_r in *. now apply split_on_segment.
  - destruct rest as [|c rest].
    { rewrite split_loop_end, app_nil_r in *. now apply split_on_segment. }
    rewrite split_loop_step.
    destruct (exec numbering (c :: rest) 0) as [e|] eqn:Hexec.
    + destruct (exec_numbering_sound _ Hexec) as (sep & post & E & Hsep & <-).
      pose proof (separator_nonempty Hsep) as L3.
      replace (length sep =? 0) with false
        by (symmetry; apply Nat.eqb_neq; lia).
      cbn [andb]. rewrite E.
      rewrite skipn_app, skipn_all, Nat.sub_diag. cbn [skipn app].
      apply split_cut with (sep := sep) (post := post); auto.
      * now rewrite <- E.
      * apply (IH [] post).
        -- apply (f_equal (@length N)) in E.
           rewrite length_app in E. simpl in *. lia.
        -- intros. simpl. lia.
    + replace (cur ++ c :: rest) with ((cur ++ [c]) ++ rest)
        by now rewrite <- app_assoc.
      apply IH; [simpl in Hfuel; lia|].
      intros pre sep post E Hsep.
      rewrite <- app_assoc in E. cbn [app] in E.
      pose proof (Hleft _ _ _ E Hsep) as L.
      rewrite length_app. cbn [length].
      destruct (Nat.eq_dec (length cur) (length pre)) as [Heq|]; [|lia].
      destruct (app_same_length _ _ _ _ Heq E) as [_ E'].
      rewrite E', (exec_numbering_complete post Hsep) in Hexec.
      discriminate.
Qed.

Lemma split_spec (s : jsstring) : split_on s (split numbering s).
Proof.
  destruct s as [|c s].
  - apply split_on_segment. intros pre sep post E Hsep.
    apply separator_nonempty in Hsep.
    apply (f_equal (@length N)) in E. rewrite !length_app in E.
    simpl in E. lia.
  - unfold split.
    apply (split_loop_spec (fuel := 2 * length (c :: s)) [] (c :: s)).
    + lia.
    + intros. simpl. lia.
Qed.

(** The pieces are determined by the string. *)
Lemma split_on_unique (s : jsstring) (segs : list jsstring) :
  split_on s segs -> forall segs', split_on s segs' -> segs = segs'.
Proof.
  induction 1 as [s Hnone | s pre sep post segs E Hsep Hleft Hrest IH];
    intros segs' H'.
  - inversion H' as [? ? | ? pre' sep' post' ? E' Hsep' ? ?]; subst; auto.
    now elim (Hnone _ _ _ eq_refl Hsep').
  - inversion H' as [? Hnone' | ? pre' sep' post' segs0 E' Hsep' Hleft' Hrest'];
      subst.
    + now elim (Hnone' _ _ _ eq_refl Hsep).
    + pose proof (Hleft _ _ _ E' Hsep') as L.
      pose proof (Hleft' _ _ _ eq_refl Hsep) as L'.
      destruct (app_same_length pre pre' _ _ (Nat.le_antisymm _ _ L L') E')
        as [-> E2].
      destruct (@separator_unique _ _ _ _ Hsep Hsep' E2) as [_ ->].
      f_equal. now apply IH.
Qed.

Lemma split_on_iff (s : jsstring) (segs : list jsstring) :
  split_on s segs <-> segs = split numbering s.
Proof.
  split.
  - intros H. exact (split_on_unique H (split_spec s)).
  - intros ->. apply split_spec.
Qed.

(* ================================================================== *)
(** ** [trim] strips the surrounding whitespace *)
(* ================================================================== *)

Lemma trimStart_spec (s : jsstring) :
  exists l, s = l ++ trimStart s /\ spaces l /\ starts_black (trimStart s).
Proof.
  induction s as [|c s (l & E & Hl & Hb)]; simpl.
  - exists []. repeat split; [constructor | intros ? ? [=]].
  - destruct (is_space c) eqn:Hc.
    + exists (c :: l). simpl. repeat split; auto.
      * now rewrite <- E.
      * now constructor.
    + exists []. repeat split; [constructor|].
      now intros ? ? [= <- <-].
Qed.

Lemma trimStart_spaces (l x : jsstring) :
  spaces l -> trimStart (l ++ x) = trimStart x.
Proof.
  induction 1 as [|c l Hc _ IH]; simpl; auto. now rewrite Hc.
Qed.

Lemma trimStart_black (t : jsstring) : starts_black t -> trimStart t = t.
Proof.
  destruct t as [|c t]; intros H; simpl; auto.
  now rewrite (H c t eq_refl).
Qed.

Lemma spaces_rev (l : jsstring) : spaces l -> spaces (rev l).
Proof. apply Forall_rev. Qed.

Lemma no_edge_space_rev (t : jsstring) :
  no_edge_space t -> starts_black (rev t).
Proof.
  intros [_ Hlast] c t' E. apply (Hlast c (rev t')).
  rewrite <- (rev_involutive t), E. reflexivity.
Qed.

Lemma trim_spec (s : jsstring) : stripped s (trim s).
Proof.
  unfold trim, trimEnd.
  destruct (trimStart_spec s) as (l & E & Hl & Hb).
  destruct (trimStart_spec (rev (trimStart s))) as (r & E' & Hr & Hb').
  set (u := trimStart s) in *. set (v := trimStart (rev u)) in *.
  assert (Eu : u = rev v ++ rev r).
  { rewrite <- rev_app_distr, <- E'. now rewrite rev_involutive. }
  exists l, (rev r). repeat split.
  - now rewrite <- Eu.
  - exact Hl.
  - now apply spaces_rev.
  - intros c t' Et. apply (Hb c (t' ++ rev r)). now rewrite Eu, Et.
  - intros c t' Et. apply (Hb' c (rev t')).
    rewrite <- (rev_involutive v), Et, rev_app_distr. reflexivity.
Qed.

Lemma stripped_unique (s t : jsstring) : stripped s t -> t = trim s.
Proof.
  intros (l & r & -> & Hl & Hr & Hedge).
  unfold trim, trimEnd. rewrite (trimStart_spaces _ Hl).
  destruct t as [|c t].
  - simpl. rewrite <- (app_nil_r r), (trimStart_spaces _ Hr). reflexivity.
  - rewrite (@trimStart_black ((c :: t) ++ r))
      by (intros ? ? [= <- <-]; now apply (proj1 Hedge c t)).
    rewrite rev_app_distr, (trimStart_spaces _ (spaces_rev Hr)).
    rewrite (trimStart_black (no_edge_space_rev Hedge)).
    now rewrite rev_involutive.
Qed.

Lemma stripped_iff (s t : jsstring) : stripped s t <-> t = trim s.
Proof.
  split; [apply stripped_unique | intros ->; apply trim_spec].
Qed.

Lemma Forall2_stripped (segs ts : list jsstring) :
  Forall2 stripped segs ts <-> ts = map trim segs.
Proof.
  split.
  - induction 1 as [|s t segs ts Hst _ IH]; simpl; auto.
    now rewrite (stripped_unique Hst), IH.
  - intros ->. induction segs; simpl; constructor; auto using trim_spec.
Qed.

(** The reshaping of a string payload in [App.jsx] is the one the
    specification describes, and no other list is. *)
Lemma reshaped_iff (s : jsstring) (out : list jsstring) :
  reshaped s out <-> out = cleanFacts (FactsString s).
Proof.
  assert (F : forall l : list jsstring,
             filter (fun t => negb (falsy t)) l
             = filter (fun t => 0 <? length t) l).
  { intros l. apply filter_ext. now intros [|]. }
  unfold reshaped, cleanFacts. split.
  - intros (segs & ts & Hsplit & Htrim & ->).
    apply split_on_iff in Hsplit. apply Forall2_stripped in Htrim.
    subst. apply F.
  - intros ->. exists (split numbering s), (map trim (split numbering s)).
    split; [apply split_spec|]. split; [now apply Forall2_stripped|].
    symmetry. apply F.
Qed.

Lemma cleanFacts_tidy (s : jsstring) :
  Forall tidy (cleanFacts (FactsString s)).
Proof.
  apply Forall_forall. intros t Hin. unfold cleanFacts in Hin.
  apply filter_In in Hin. destruct Hin as [Hin Hlen].
  apply in_map_iff in Hin. destruct Hin as (seg & <- & _).
  split.
  - intros E. rewrite E in Hlen. discriminate.
  - destruct (trim_spec seg) as (_ & _ & _ & _ & _ & H). exact H.
Qed.

(* ================================================================== *)
(** ** What each handler does, branch by branch *)
(* ================================================================== *)

Section Validation.

Variable st : State.
Let t := trim (topic st).

Lemma fetchFacts_required :
  t = [] -> fetchFacts st = SetError required_error ;; Return.
Proof. unfold fetchFacts. fold t. now intros ->. Qed.

Lemma fetchFacts_too_short :
  length t = 1 -> fetchFacts st = SetError too_short_error ;; Return.
Proof.
  intros L. unfold fetchFacts. fold t.
  destruct t as [|a [|b u]]; simpl in L; try discriminate L. reflexivity.
Qed.

Lemma fetchFacts_too_long :
  50 < length t -> fetchFacts st = SetError too_long_error ;; Return.
Proof.
  intros L. unfold fetchFacts. fold t.
  replace (falsy t) with false by (destruct t; [simpl in L; lia | easy]).
  replace (length t <? 2) with false by (symmetry; apply Nat.ltb_ge; lia).
  replace (50 <? length t) with true by (symmetry; apply Nat.ltb_lt; lia).
  reflexivity.
Qed.

Variable net : request -> outcome.

Lemma handle_fetchFacts_accepted :
  2 <= length t <= 50 ->
  handle fetchFacts net st
  = mkState (topic st) (facts_after (net (facts_request t))) false
            (loadingMore st) (loadingRandomWord st) (lit "")
  /\ issued fetchFacts net st
     = [(facts_request t,
         mkState (topic st) [] true (loadingMore st) (loadingRandomWord st)
                 (lit ""))].
Proof.
  intros L. unfold handle, issued, requests, run, fetchFacts. fold t.
  replace (falsy t) with false by (destruct t; [simpl in L; lia | easy]).
  replace (length t <? 2) with false by (symmetry; apply Nat.ltb_ge; lia).
  replace (50 <? length t) with false by (symmetry; apply Nat.ltb_ge; lia).
  cbv zeta. cbn [trace]. fold (facts_request t). unfold facts_after.
  destruct (ok_or_throw _ (net (facts_request t))); split; reflexivity.
Qed.

Lemma handle_fetchFacts_rejected (message : jsstring) :
  fetchFacts st = SetError message ;; Return ->
  handle fetchFacts net st = apply (SetError message) st /\
  trace net (fetchFacts st) = [Did (SetError message)] /\
  issued fetchFacts net st = [].
Proof.
  intros E. unfold handle, issued, requests, run. rewrite E.
  repeat split.
Qed.

Lemma handle_fetchMoreFacts_idle :
  topic st = [] ->
  trace net (fetchMoreFacts st) = [] /\
  handle fetchMoreFacts net st = st /\ issued fetchMoreFacts net st = [].
Proof.
  intros E. unfold handle, issued, requests, run, fetchMoreFacts.
  rewrite E. repeat split.
Qed.

Lemma handle_fetchMoreFacts_sent :
  topic st <> [] ->
  handle fetchMoreFacts net st
  = mkState (topic st) (facts st ++ more_after (net (more_request (topic st))))
            (loading st) false (loadingRandomWord st) (error st)
  /\ issued fetchMoreFacts net st
     = [(more_request (topic st), apply (SetLoadingMore true) st)].
Proof.
  intros Hne. unfold handle, issued, requests, run, fetchMoreFacts.
  replace (falsy (topic st)) with false by (now destruct (topic st)).
  cbv zeta. cbn [trace]. fold (more_request (topic st)). unfold more_after.
  destruct (ok_or_throw _ (net (more_request (topic st))));
    split; reflexivity.
Qed.

Lemma handle_getRandomWord :
  handle getRandomWord net st
  = match ok_or_throw (lit "Failed to get random word") (net random_request)
    with
    | inr data =>
      mkState (data_word data) (facts st) (loading st) (loadingMore st)
              false (lit "")
    | inl _ =>
      mkState (topic st) (facts st) (loading st) (loadingMore st)
              false random_failed_error
    end
  /\ issued getRandomWord net st
     = [(random_request, apply (SetLoadingRandomWord true) st)].
Proof.
  unfold handle, issued, requests, run, getRandomWord.
  cbv zeta. cbn [trace]. fold random_request.
  destruct (ok_or_throw _ (net random_request)); split; reflexivity.
Qed.

End Validation.

(** The setter calls around the request, in program order: the flag is set
    before the request is sent and cleared last, whatever the outcome. *)
Lemma trace_fetchFacts_accepted (net : request -> outcome) (st : State) :
  2 <= length (trim (topic st)) <= 50 ->
  exists settle,
    trace net (fetchFacts st)
    = [Did (SetError (lit "")); Did (SetLoading true); Did (SetFacts []);
       Sent (facts_request (trim (topic st)))]
      ++ settle ++ [Did (SetLoading false)].
Proof.
  intros L. unfold fetchFacts.
  replace (falsy (trim (topic st))) with false
    by (destruct (trim (topic st)); [simpl in L; lia | easy]).
  replace (length (trim (topic st)) <? 2) with false
    by (symmetry; apply Nat.ltb_ge; lia).
  replace (50 <? length (trim (topic st))) with false
    by (symmetry; apply Nat.ltb_ge; lia).
  cbv zeta. cbn [trace]. fold (facts_request (trim (topic st))).
  destruct (ok_or_throw _ (net (facts_request (trim (topic st)))))
    as [message | data].
  - now exists [Did Console; Did (SetFacts (facts_for_error message))].
  - now exists [Did (SetFacts (cleanFacts (data_facts data)))].
Qed.

Lemma trace_fetchMoreFacts_sent (net : request -> outcome) (st : State) :
  topic st <> [] ->
  exists settle,
    trace net (fetchMoreFacts st)
    = [Did (SetLoadingMore true); Sent (more_request (topic st))]
      ++ settle ++ [Did (SetLoadingMore false)].
Proof.
  intros Hne. unfold fetchMoreFacts.
  replace (falsy (topic st)) with false by (now destruct (topic st)).
  cbv zeta. cbn [trace]. fold (more_request (topic st)).
  destruct (ok_or_throw _ (net (more_request (topic st))))
    as [message | data].
  - now exists [Did Console;
                Did (UpdateFacts (fun prev => prev ++ [more_failed_fact]))].
  - now exists [Did (UpdateFacts
                       (fun prev => prev ++ cleanFacts (data_facts data)))].
Qed.

Lemma trace_getRandomWord (net : request -> outcome) (st : State) :
  exists settle,
    trace net (getRandomWord st)
    = [Did (SetLoadingRandomWord true); Sent random_request]
      ++ settle ++ [Did (SetLoadingRandomWord false)].
Proof.
  unfold getRandomWord. cbv zeta. cbn [trace]. fold random_request.
  destruct (ok_or_throw _ (net random_request)) as [message | data].
  - now exists [Did Console; Did (SetError random_failed_error)].
  - now exists [Did (SetTopic (data_word data)); Did (SetError (lit ""));
                Did Console].
Qed.

Lemma fetchFacts_rejects (st : State) :
  length (trim (topic st)) < 2 \/ 50 < length (trim (topic st)) ->
  exists message,
    fetchFacts st = SetError message ;; Return /\
    (length (trim (topic st)) = 0 /\ message = required_error \/
     length (trim (topic st)) = 1 /\ message = too_short_error \/
     50 < length (trim (topic st)) /\ message = too_long_error).
Proof.
  intros L.
  assert (C : length (trim (topic st)) = 0 \/ length (trim (topic st)) = 1
              \/ 50 < length (trim (topic st))) by lia.
  destruct C as [E | [E | E]].
  - exists required_error. split; auto.
    apply fetchFacts_required. now apply length_zero_iff_nil.
  - exists too_short_error. split; auto. now apply fetchFacts_too_short.
  - exists too_long_error. split; auto. now apply fetchFacts_too_long.
Qed.

(** A request of [fetchFacts] is the one issued after validation. *)
Lemma issued_fetchFacts_inv (net : request -> outcome) (st s : State)
    (r : request) :
  In (r, s) (issued fetchFacts net st) ->
  2 <= length (trim (topic st)) <= 50 /\
  r = facts_request (trim (topic st)) /\
  s = mkState (topic st) [] true (loadingMore st) (loadingRandomWord st)
              (lit "").
Proof.
  intros Hin.
  destruct (Nat.lt_ge_cases (length (trim (topic st))) 2) as [L|L];
    [|destruct (Nat.lt_ge_cases 50 (length (trim (topic st)))) as [L'|L']].
  - destruct (fetchFacts_rejects st (or_introl L)) as (m & E & _).
    destruct (handle_fetchFacts_rejected st net E) as (_ & _ & I).
    rewrite I in Hin. destruct Hin.
  - destruct (fetchFacts_rejects st (or_intror L')) as (m & E & _).
    destruct (handle_fetchFacts_rejected st net E) as (_ & _ & I).
    rewrite I in Hin. destruct Hin.
  - destruct (handle_fetchFacts_accepted st net (conj L L')) as [_ I].
    rewrite I in Hin. destruct Hin as [[= <- <-] | []]. auto.
Qed.

(** A request of [fetchMoreFacts] is issued for a non-empty topic, with
    [loadingMore] set. *)
Lemma issued_fetchMoreFacts_inv (net : request -> outcome) (st s : State)
    (r : request) :
  In (r, s) (issued fetchMoreFacts net st) ->
  topic st <> [] /\
  r = more_request (topic st) /\ s = apply (SetLoadingMore true) st.
Proof.
  intros Hin. destruct (list_eq_dec N.eq_dec (topic st) []) as [E|Hne].
  - destruct (handle_fetchMoreFacts_idle st net E) as (_ & _ & I).
    rewrite I in Hin. destruct Hin.
  - destruct (handle_fetchMoreFacts_sent st net Hne) as [_ I].
    rewrite I in Hin. destruct Hin as [[= <- <-] | []]. auto.
Qed.

(* ================================================================== *)
(** ** The facts sequence *)
(* ================================================================== *)

(** C1, as stated, fails on submit-topic: [fetchFacts] on the topic "cats"
    with one fact on display and a service answering ["Dogs bark."] leaves
    ["Dogs bark."] only; the earlier fact is gone, so the new sequence is
    not the old one with strings appended. *)
Lemma submit_replaces_facts :
  facts stale = [lit "Cats purr."] /\
  facts (handle fetchFacts dogs stale) = [lit "Dogs bark."] /\
  ~ (exists added,
        facts (handle fetchFacts dogs stale) = facts stale ++ added).
Proof.
  split; [reflexivity|]. split; [reflexivity|].
  intros [added E]. vm_compute in E. discriminate E.
Qed.

(** C1 (amended): load-more only appends to the facts sequence, in its
    success and in its error branch; submit-topic leaves the sequence as it
    is when the topic fails validation, and otherwise replaces it by the
    facts of the response or by the canned error strings. *)
Theorem facts_appended_or_replaced (net : request -> outcome) (st : State) :
  (exists added, facts (handle fetchMoreFacts net st) = facts st ++ added) /\
  (length (trim (topic st)) < 2 \/ 50 < length (trim (topic st)) ->
   facts (handle fetchFacts net st) = facts st) /\
  (2 <= length (trim (topic st)) <= 50 ->
   facts (handle fetchFacts net st)
   = facts_after (net (facts_request (trim (topic st))))).
Proof.
  split; [|split].
  - destruct (topic st) as [|c t] eqn:E.
    + exists []. destruct (handle_fetchMoreFacts_idle st net E) as (_ & -> & _).
      now rewrite app_nil_r.
    + assert (Hne : topic st <> []) by (rewrite E; discriminate).
      destruct (handle_fetchMoreFacts_sent st net Hne) as [-> _].
      now eexists.
  - intros L. destruct (fetchFacts_rejects st L) as (message & E & _).
    destruct (handle_fetchFacts_rejected st net E) as (-> & _). reflexivity.
  - intros L. destruct (handle_fetchFacts_accepted st net L) as [-> _].
    reflexivity.
Qed.

Lemma facts_appended_or_replaced_witness :
  (exists added,
      facts (handle fetchMoreFacts dogs stale) = [lit "Cats purr."] ++ added) /\
  (exists added,
      facts (handle fetchMoreFacts offline stale)
      = [lit "Cats purr."] ++ added) /\
  facts (handle fetchFacts dogs blank) = [lit "Cats purr."] /\
  facts (handle fetchFacts dogs padded) = [lit "Dogs bark."].
Proof.
  destruct (facts_appended_or_replaced dogs stale) as (M & _ & _).
  destruct (facts_appended_or_replaced offline stale) as (M' & _ & _).
  destruct (facts_appended_or_replaced dogs blank) as (_ & R & _).
  destruct (facts_appended_or_replaced dogs padded) as (_ & _ & A).
  split; [|split; [|split]].
  - exact M.
  - exact M'.
  - apply R. left. vm_compute. lia.
  - rewrite A; [reflexivity | vm_compute; lia].
Defined.

(* ================================================================== *)
(** ** Reshaping the response *)
(* ================================================================== *)

(** On a successful response both handlers install [cleanFacts] of the
    payload: submit-topic as the whole sequence, load-more at its end. *)
Lemma handlers_install_cleanFacts (net : request -> outcome) (st : State)
    (data : payload) :
  (2 <= length (trim (topic st)) <= 50 ->
   net (facts_request (trim (topic st))) = Resolved true data ->
   facts (handle fetchFacts net st) = cleanFacts (data_facts data)) /\
  (topic st <> [] ->
   net (more_request (topic st)) = Resolved true data ->
   facts (handle fetchMoreFacts net st)
   = facts st ++ cleanFacts (data_facts data)).
Proof.
  split.
  - intros L E. destruct (handle_fetchFacts_accepted st net L) as [-> _].
    unfold facts_after. rewrite E. reflexivity.
  - intros Hne E. destruct (handle_fetchMoreFacts_sent st net Hne) as [-> _].
    unfold more_after. rewrite E. reflexivity.
Qed.

(** C2: when [data.facts] is a string, the facts array is that string split
    at every run of digits followed by a period and a whitespace character,
    each segment trimmed and the empty ones dropped, and it is the only
    such array; when [data.facts] is an array it is taken as it is. Both
    submit-topic and load-more install the array so obtained. *)
Theorem response_reshaping (net : request -> outcome) (st : State)
    (data : payload) :
  (payload_reshaped (data_facts data) (cleanFacts (data_facts data)) /\
   forall out s,
     data_facts data = FactsString s ->
     reshaped s out -> out = cleanFacts (data_facts data)) /\
  (2 <= length (trim (topic st)) <= 50 ->
   net (facts_request (trim (topic st))) = Resolved true data ->
   facts (handle fetchFacts net st) = cleanFacts (data_facts data)) /\
  (topic st <> [] ->
   net (more_request (topic st)) = Resolved true data ->
   facts (handle fetchMoreFacts net st)
   = facts st ++ cleanFacts (data_facts data)).
Proof.
  split; [split|apply handlers_install_cleanFacts].
  - destruct (data_facts data) as [l | s |]; simpl; auto.
    now apply reshaped_iff.
  - intros out s -> H. now apply reshaped_iff.
Qed.

Lemma response_reshaping_witness :
  reshaped (lit "1. Cats purr.  2. Cats nap. 3.  ")
           [lit "Cats purr."; lit "Cats nap."] /\
  facts (handle fetchFacts numbered padded)
  = [lit "Cats purr."; lit "Cats nap."] /\
  facts (handle fetchMoreFacts numbered stale)
  = [lit "Cats purr."; lit "Cats purr."; lit "Cats nap."] /\
  facts (handle fetchMoreFacts dogs stale)
  = [lit "Cats purr."; lit "Dogs bark."].
Proof.
  destruct (response_reshaping numbered padded
              (facts_payload
                 (FactsString (lit "1. Cats purr.  2. Cats nap. 3.  "))))
    as ((R & _) & S & _).
  destruct (response_reshaping numbered stale
              (facts_payload
                 (FactsString (lit "1. Cats purr.  2. Cats nap. 3.  "))))
    as (_ & _ & M).
  destruct (response_reshaping dogs stale
              (facts_payload (FactsArray [lit "Dogs bark."])))
    as (_ & _ & A).
  split; [|split; [|split]].
  - exact R.
  - rewrite S; [reflexivity | vm_compute; lia | reflexivity].
  - rewrite M; [reflexivity | discriminate | reflexivity].
  - rewrite A; [reflexivity | discriminate | reflexivity].
Defined.

(** C10: every string that the parsing of a string payload puts into the
    facts sequence is non-empty and has no whitespace at either end, in
    submit-topic and in load-more. *)
Theorem parsed_facts_tidy (net : request -> outcome) (st : State)
    (data : payload) (s : jsstring) :
  data_facts data = FactsString s ->
  Forall tidy (cleanFacts (data_facts data)) /\
  (2 <= length (trim (topic st)) <= 50 ->
   net (facts_request (trim (topic st))) = Resolved true data ->
   Forall tidy (facts (handle fetchFacts net st))) /\
  (topic st <> [] ->
   net (more_request (topic st)) = Resolved true data ->
   exists added,
     facts (handle fetchMoreFacts net st) = facts st ++ added /\
     Forall tidy added).
Proof.
  intros Es.
  assert (T : Forall tidy (cleanFacts (data_facts data)))
    by (rewrite Es; apply cleanFacts_tidy).
  destruct (handlers_install_cleanFacts net st data) as (S & M).
  split; [exact T|]. split.
  - intros L E. now rewrite (S L E).
  - intros Hne E. exists (cleanFacts (data_facts data)). split; auto.
Qed.

Lemma parsed_facts_tidy_witness :
  Forall tidy [lit "Cats purr."; lit "Cats nap."] /\
  Forall tidy (facts (handle fetchFacts numbered padded)) /\
  (exists added,
      facts (handle fetchMoreFacts numbered stale)
      = [lit "Cats purr."] ++ added /\ Forall tidy added).
Proof.
  destruct (@parsed_facts_tidy numbered padded
              (facts_payload
                 (FactsString (lit "1. Cats purr.  2. Cats nap. 3.  ")))
              (lit "1. Cats purr.  2. Cats nap. 3.  ") eq_refl)
    as (T & S & _).
  destruct (@parsed_facts_tidy numbered stale
              (facts_payload
                 (FactsString (lit "1. Cats purr.  2. Cats nap. 3.  ")))
              (lit "1. Cats purr.  2. Cats nap. 3.  ") eq_refl)
    as (_ & _ & M).
  split; [|split].
  - exact T.
  - apply S; [vm_compute; lia | reflexivity].
  - apply M; [discriminate | reflexivity].
Defined.

(* ================================================================== *)
(** ** Validation of the topic *)
(* ================================================================== *)

(** C3, as stated, fails below two characters: the topic "a" has trimmed
    length 1, within 0-50, and [fetchFacts] rejects it with the too-short
    message and issues no request. *)
Lemma one_letter_topic_rejected :
  length (trim (topic one_letter)) = 1 /\
  issued fetchFacts dogs one_letter = [] /\
  error (handle fetchFacts dogs one_letter) = too_short_error.
Proof. repeat split. Qed.

(** C3 (amended): the validation at submission is a bound of 2-50 on the
    length of the trimmed topic. A trimmed topic of 2 to 50 code units is
    accepted and the request is issued; a longer one is rejected with the
    too-long message and a shorter one with the required-field or the
    too-short message, and then no request is issued. *)
Theorem topic_length_validation (net : request -> outcome) (st : State) :
  (2 <= length (trim (topic st)) <= 50 ->
   map fst (issued fetchFacts net st) = [facts_request (trim (topic st))]) /\
  (50 < length (trim (topic st)) ->
   issued fetchFacts net st = [] /\
   handle fetchFacts net st = apply (SetError too_long_error) st) /\
  (length (trim (topic st)) = 1 ->
   issued fetchFacts net st = [] /\
   handle fetchFacts net st = apply (SetError too_short_error) st) /\
  (length (trim (topic st)) = 0 ->
   issued fetchFacts net st = [] /\
   handle fetchFacts net st = apply (SetError required_error) st).
Proof.
  split; [|split; [|split]].
  - intros L. destruct (handle_fetchFacts_accepted st net L) as [_ ->].
    reflexivity.
  - intros L.
    destruct (handle_fetchFacts_rejected st net (fetchFacts_too_long st L))
      as (-> & _ & ->). auto.
  - intros L.
    destruct (handle_fetchFacts_rejected st net (fetchFacts_too_short st L))
      as (-> & _ & ->). auto.
  - intros L. apply length_zero_iff_nil in L.
    destruct (handle_fetchFacts_rejected st net (fetchFacts_required st L))
      as (-> & _ & ->). auto.
Qed.

Lemma topic_length_validation_witness :
  map fst (issued fetchFacts dogs padded) = [facts_request (lit "cats")] /\
  (issued fetchFacts dogs overlong = [] /\
   error (handle fetchFacts dogs overlong) = too_long_error) /\
  (issued fetchFacts dogs one_letter = [] /\
   error (handle fetchFacts dogs one_letter) = too_short_error) /\
  (issued fetchFacts dogs blank = [] /\
   error (handle fetchFacts dogs blank) = required_error).
Proof.
  destruct (topic_length_validation dogs padded) as (A & _).
  destruct (topic_length_validation dogs overlong) as (_ & B & _).
  destruct (topic_length_validation dogs one_letter) as (_ & _ & C & _).
  destruct (topic_length_validation dogs blank) as (_ & _ & _ & D).
  split; [|split; [|split]].
  - apply A. vm_compute. lia.
  - destruct B as [I E]; [vm_compute; lia|]. now rewrite I, E.
  - destruct C as [I E]; [reflexivity|]. now rewrite I, E.
  - destruct D as [I E]; [reflexivity|]. now rewrite I, E.
Defined.

(** C4: a topic whose trimmed value is empty sets the required-field
    error; no request is issued, and the facts and the loading flag stay as
    they are. *)
Theorem empty_topic_required_error (net : request -> outcome) (st : State) :
  trim (topic st) = [] ->
  handle fetchFacts net st = apply (SetError required_error) st /\
  error (handle fetchFacts net st) = required_error /\
  issued fetchFacts net st = [] /\
  facts (handle fetchFacts net st) = facts st /\
  loading (handle fetchFacts net st) = loading st.
Proof.
  intros E.
  destruct (handle_fetchFacts_rejected st net (fetchFacts_required st E))
    as (-> & _ & ->).
  repeat split.
Qed.

Lemma empty_topic_required_error_witness :
  trim (topic blank) = [] /\
  error (handle fetchFacts dogs blank) = required_error /\
  issued fetchFacts dogs blank = [] /\
  facts (handle fetchFacts dogs blank) = [lit "Cats purr."].
Proof.
  split; [reflexivity|].
  destruct (@empty_topic_required_error dogs blank eq_refl)
    as (_ & E & I & F & _).
  split; [exact E | split; [exact I | exact F]].
Defined.

(* ================================================================== *)
(** ** Requests *)
(* ================================================================== *)

(** C7: submit-topic, for a topic that passes validation, sends exactly one
    request: a POST to /api/facts whose JSON body has the trimmed topic as
    its [topic] field and no [more] field; load-more, for a non-empty
    topic, sends exactly one request: a POST to /api/facts whose JSON body
    has the topic as its [topic] field and [true] as its [more] field.
    Neither operation ever sends a request of another shape. *)
Theorem request_bodies (net : request -> outcome) (st s : State)
    (r : request) :
  (2 <= length (trim (topic st)) <= 50 ->
   map fst (issued fetchFacts net st) = [facts_request (trim (topic st))] /\
   url (facts_request (trim (topic st))) = api_facts /\
   method (facts_request (trim (topic st))) = POST /\
   body (facts_request (trim (topic st)))
   = Some [("topic"%string, JString (trim (topic st)))] /\
   body_field "topic" (facts_request (trim (topic st)))
   = Some (JString (trim (topic st))) /\
   body_field "more" (facts_request (trim (topic st))) = None) /\
  (topic st <> [] ->
   map fst (issued fetchMoreFacts net st) = [more_request (topic st)] /\
   url (more_request (topic st)) = api_facts /\
   method (more_request (topic st)) = POST /\
   body (more_request (topic st))
   = Some [("topic"%string, JString (topic st));
           ("more"%string, JBool true)] /\
   body_field "topic" (more_request (topic st))
   = Some (JString (topic st)) /\
   body_field "more" (more_request (topic st)) = Some (JBool true)) /\
  (In (r, s) (issued fetchFacts net st) ->
   url r = api_facts /\ method r = POST /\
   body r = Some [("topic"%string, JString (trim (topic st)))] /\
   body_field "topic" r = Some (JString (trim (topic st))) /\
   body_field "more" r = None) /\
  (In (r, s) (issued fetchMoreFacts net st) ->
   url r = api_facts /\ method r = POST /\
   body r = Some [("topic"%string, JString (topic st));
                  ("more"%string, JBool true)] /\
   body_field "topic" r = Some (JString (topic st)) /\
   body_field "more" r = Some (JBool true)).
Proof.
  split; [|split; [|split]].
  - intros L. destruct (handle_fetchFacts_accepted st net L) as [_ ->].
    repeat split.
  - intros Hne. destruct (handle_fetchMoreFacts_sent st net Hne) as [_ ->].
    repeat split.
  - intros Hin.
    destruct (issued_fetchFacts_inv _ _ _ _ Hin) as (_ & -> & _).
    repeat split.
  - intros Hin.
    destruct (issued_fetchMoreFacts_inv _ _ _ _ Hin) as (_ & -> & _).
    repeat split.
Qed.

Lemma request_bodies_witness :
  (map fst (issued fetchFacts dogs padded)
   = [facts_request (trim (topic padded))] /\
   body_field "topic" (facts_request (trim (topic padded)))
   = Some (JString (trim (topic padded))) /\
   body_field "more" (facts_request (trim (topic padded))) = None) /\
  (map fst (issued fetchMoreFacts offline padded)
   = [more_request (topic padded)] /\
   body_field "topic" (more_request (topic padded))
   = Some (JString (topic padded)) /\
   body_field "more" (more_request (topic padded)) = Some (JBool true)) /\
  trim (topic padded) = lit "cats" /\ topic padded = lit "  cats ".
Proof.
  destruct (request_bodies dogs padded padded (facts_request (lit "cats")))
    as (A & _).
  destruct (request_bodies offline padded padded
              (more_request (lit "  cats "))) as (_ & B & _).
  split; [|split; [|split]].
  - destruct A as (I & _ & _ & _ & T & M); [vm_compute; lia|].
    split; [exact I | split; [exact T | exact M]].
  - destruct B as (I & _ & _ & _ & T & M); [vm_compute; discriminate|].
    split; [exact I | split; [exact T | exact M]].
  - vm_compute. reflexivity.
  - vm_compute. reflexivity.
Defined.

(** C9: with an empty topic, load-more returns at once: no request, no
    setter call, every state cell as it was. *)
Theorem load_more_needs_topic (net : request -> outcome) (st : State) :
  topic st = [] ->
  trace net (fetchMoreFacts st) = [] /\
  issued fetchMoreFacts net st = [] /\
  handle fetchMoreFacts net st = st.
Proof.
  intros E. destruct (handle_fetchMoreFacts_idle st net E) as (T & H & I).
  auto.
Qed.

Lemma load_more_needs_topic_witness :
  topic untouched = [] /\
  trace dogs (fetchMoreFacts untouched) = [] /\
  handle fetchMoreFacts dogs untouched = untouched.
Proof.
  split; [reflexivity|].
  destruct (@load_more_needs_topic dogs untouched eq_refl) as (T & _ & H).
  split; [exact T | exact H].
Defined.

(* ================================================================== *)
(** ** Errors *)
(* ================================================================== *)

(** C5, as stated, fails outside submit-topic and on the other two
    substrings. Load-more with the error message "429 Too many requests"
    appends the same fixed string as with any other message, not a
    rate-limit string, and random-topic sets one fixed error message; in
    submit-topic the message "Too many requests", which contains neither
    "429" nor "500", maps to the rate-limit string, not to the fallback. *)
Lemma load_more_ignores_error_message :
  ok_or_throw (lit "Failed to fetch more facts")
              (busy (more_request (topic stale)))
  = inl (lit "429 Too many requests") /\
  includes (lit "429 Too many requests") (lit "429") = true /\
  facts (handle fetchMoreFacts busy stale)
  = [lit "Cats purr."; lit "🙏 Sorry, couldn't fetch more facts."] /\
  facts (handle fetchMoreFacts offline stale)
  = [lit "Cats purr."; lit "🙏 Sorry, couldn't fetch more facts."] /\
  error (handle getRandomWord busy stale)
  = error (handle getRandomWord offline stale) /\
  includes (lit "Too many requests") (lit "429") = false /\
  includes (lit "Too many requests") (lit "500") = false /\
  facts (handle fetchFacts (serve (Rejected (lit "Too many requests"))) stale)
  = rate_limit_facts.
Proof. repeat conj_step; vm_compute; reflexivity. Qed.

(** C5 (amended): a caught error is mapped to hardcoded strings. Only
    submit-topic looks into the message: one containing "429" or "Too many
    requests" gives the rate-limit string; otherwise one containing "500"
    or "Something went wrong" gives the server-issue string; any other
    gives the three fallback strings; they replace the facts. Load-more
    appends one fixed string and random-topic sets one fixed error message,
    whatever the message says. *)
Theorem caught_errors_mapped (net : request -> outcome) (st : State)
    (message : jsstring) :
  (2 <= length (trim (topic st)) <= 50 ->
   ok_or_throw (lit "Failed to fetch facts")
               (net (facts_request (trim (topic st)))) = inl message ->
   facts (handle fetchFacts net st)
   = if includes message (lit "429")
        || includes message (lit "Too many requests")
     then rate_limit_facts
     else if includes message (lit "500")
             || includes message (lit "Something went wrong")
     then server_issue_facts
     else fallback_facts) /\
  (topic st <> [] ->
   ok_or_throw (lit "Failed to fetch more facts")
               (net (more_request (topic st))) = inl message ->
   facts (handle fetchMoreFacts net st) = facts st ++ [more_failed_fact]) /\
  (ok_or_throw (lit "Failed to get random word") (net random_request)
   = inl message ->
   error (handle getRandomWord net st) = random_failed_error).
Proof.
  split; [|split].
  - intros L E. destruct (handle_fetchFacts_accepted st net L) as [-> _].
    unfold facts_after. rewrite E. reflexivity.
  - intros Hne E. destruct (handle_fetchMoreFacts_sent st net Hne) as [-> _].
    unfold more_after. rewrite E. reflexivity.
  - intros E. destruct (handle_getRandomWord st net) as [-> _].
    rewrite E. reflexivity.
Qed.

Lemma caught_errors_mapped_witness :
  facts (handle fetchFacts busy padded) = rate_limit_facts /\
  facts (handle fetchFacts broken padded) = server_issue_facts /\
  facts (handle fetchFacts offline padded) = fallback_facts /\
  facts (handle fetchMoreFacts busy stale)
  = [lit "Cats purr."; more_failed_fact] /\
  error (handle getRandomWord offline stale) = random_failed_error.
Proof.
  destruct (caught_errors_mapped busy padded (lit "429 Too many requests"))
    as (A & _).
  destruct (caught_errors_mapped broken padded (lit "HTTP 500")) as (B & _).
  destruct (caught_errors_mapped offline padded (lit "Failed to fetch"))
    as (C & _).
  destruct (caught_errors_mapped busy stale (lit "429 Too many requests"))
    as (_ & M & _).
  destruct (caught_errors_mapped offline stale (lit "Failed to fetch"))
    as (_ & _ & R).
  split; [|split; [|split; [|split]]].
  - rewrite A; [| vm_compute; lia |]; vm_compute; reflexivity.
  - rewrite B; [| vm_compute; lia |]; vm_compute; reflexivity.
  - rewrite C; [| vm_compute; lia |]; vm_compute; reflexivity.
  - rewrite M; [| discriminate |]; vm_compute; reflexivity.
  - apply R. vm_compute. reflexivity.
Defined.

(** C8: random-topic issues GET /api/random-words; on a successful response
    it sets the topic to the returned word and clears the error message; on
    a response that is not ok, and on a thrown error, it sets the error
    message to the fixed failure string and leaves the topic as it is. *)
Theorem random_topic_contract (net : request -> outcome) (st : State) :
  (map fst (issued getRandomWord net st) = [random_request] /\
   url random_request = api_random_words /\ method random_request = GET) /\
  (forall data,
      net random_request = Resolved true data ->
      topic (handle getRandomWord net st) = data_word data /\
      error (handle getRandomWord net st) = lit "") /\
  (forall data,
      net random_request = Resolved false data ->
      error (handle getRandomWord net st) = random_failed_error /\
      topic (handle getRandomWord net st) = topic st) /\
  (forall message,
      net random_request = Rejected message ->
      error (handle getRandomWord net st) = random_failed_error /\
      topic (handle getRandomWord net st) = topic st).
Proof.
  destruct (handle_getRandomWord st net) as [H I].
  split; [|split; [|split]].
  - rewrite I. repeat split.
  - intros data E. rewrite H, E. split; reflexivity.
  - intros data E. rewrite H, E. split; reflexivity.
  - intros message E. rewrite H, E. split; reflexivity.
Qed.

Lemma random_topic_contract_witness :
  (topic (handle getRandomWord ninja untouched) = lit "ninja" /\
   error (handle getRandomWord ninja untouched) = lit "") /\
  (error (handle getRandomWord busy untouched) = random_failed_error /\
   topic (handle getRandomWord busy untouched) = lit "") /\
  (error (handle getRandomWord offline untouched) = random_failed_error /\
   topic (handle getRandomWord offline untouched) = lit "").
Proof.
  destruct (random_topic_contract ninja untouched) as (_ & A & _).
  destruct (random_topic_contract busy untouched) as (_ & _ & B & _).
  destruct (random_topic_contract offline untouched) as (_ & _ & _ & C).
  split; [|split].
  - apply (A (word_payload (lit "ninja") 41)). reflexivity.
  - apply (B (error_payload (lit "429 Too many requests"))). reflexivity.
  - apply (C (lit "Failed to fetch")). reflexivity.
Defined.

(* ================================================================== *)
(** ** Buttons and loading flags *)
(* ================================================================== *)

(** C6: a button is disabled in every state where its own loading flag is
    set. Each handler that gets to its request (submit-topic for a topic
    that passes validation, load-more for a non-empty topic, random-topic
    always) sends exactly one request, calls its own setter with [true]
    before the request is sent, so that the flag is set and the button
    disabled in the state the request is sent in, whatever the flag was
    before, and calls it with [false] as its last step, so that the flag
    is clear when the handler is done, whatever the outcome of the
    request. No request is ever sent with the flag clear. *)
Theorem buttons_disabled_in_flight (net : request -> outcome)
    (st : State) :
  ((loading st = true -> submit_disabled st = true) /\
   (loadingMore st = true -> more_disabled st = true) /\
   (loadingRandomWord st = true -> random_disabled st = true)) /\
  (2 <= length (trim (topic st)) <= 50 ->
   exists s settle,
     issued fetchFacts net st = [(facts_request (trim (topic st)), s)] /\
     trace net (fetchFacts st)
     = [Did (SetError (lit "")); Did (SetLoading true); Did (SetFacts []);
        Sent (facts_request (trim (topic st)))]
       ++ settle ++ [Did (SetLoading false)] /\
     loading s = true /\ submit_disabled s = true /\
     loading (handle fetchFacts net st) = false) /\
  (topic st <> [] ->
   exists s settle,
     issued fetchMoreFacts net st = [(more_request (topic st), s)] /\
     trace net (fetchMoreFacts st)
     = [Did (SetLoadingMore true); Sent (more_request (topic st))]
       ++ settle ++ [Did (SetLoadingMore false)] /\
     loadingMore s = true /\ more_disabled s = true /\
     loadingMore (handle fetchMoreFacts net st) = false) /\
  (exists s settle,
     issued getRandomWord net st = [(random_request, s)] /\
     trace net (getRandomWord st)
     = [Did (SetLoadingRandomWord true); Sent random_request]
       ++ settle ++ [Did (SetLoadingRandomWord false)] /\
     loadingRandomWord s = true /\ random_disabled s = true /\
     loadingRandomWord (handle getRandomWord net st) = false) /\
  (forall r s,
      In (r, s) (issued fetchFacts net st) ->
      loading s = true /\ submit_disabled s = true /\
      loading (handle fetchFacts net st) = false) /\
  (forall r s,
      In (r, s) (issued fetchMoreFacts net st) ->
      loadingMore s = true /\ more_disabled s = true /\
      loadingMore (handle fetchMoreFacts net st) = false) /\
  (forall r s,
      In (r, s) (issued getRandomWord net st) ->
      loadingRandomWord s = true /\ random_disabled s = true /\
      loadingRandomWord (handle getRandomWord net st) = false).
Proof.
  split; [|split; [|split; [|split; [|split; [|split]]]]].
  - unfold submit_disabled, more_disabled, random_disabled.
    repeat split; auto. now intros ->.
  - intros L.
    destruct (handle_fetchFacts_accepted st net L) as [-> ->].
    destruct (trace_fetchFacts_accepted net st L) as [settle ->].
    eexists. exists settle. repeat split.
  - intros Hne.
    destruct (handle_fetchMoreFacts_sent st net Hne) as [-> ->].
    destruct (trace_fetchMoreFacts_sent net st Hne) as [settle ->].
    eexists. exists settle. repeat split.
  - destruct (handle_getRandomWord st net) as [H ->].
    destruct (trace_getRandomWord net st) as [settle ->].
    eexists. exists settle. rewrite H.
    destruct (ok_or_throw _ (net random_request)); repeat split.
  - intros r s Hin.
    destruct (issued_fetchFacts_inv _ _ _ _ Hin) as (L & _ & ->).
    destruct (handle_fetchFacts_accepted st net L) as [-> _].
    repeat split.
  - intros r s Hin.
    destruct (issued_fetchMoreFacts_inv _ _ _ _ Hin) as (Hne & _ & ->).
    destruct (handle_fetchMoreFacts_sent st net Hne) as [-> _].
    repeat split.
  - intros r s Hin. destruct (handle_getRandomWord st net) as [H I].
    rewrite I in Hin. destruct Hin as [[= <- <-] | []].
    rewrite H. destruct (ok_or_throw _ (net random_request)); repeat split.
Qed.

Lemma buttons_disabled_in_flight_witness :
  loading padded = false /\ loadingMore stale = false /\
  loadingRandomWord stale = false /\
  (exists s settle,
      issued fetchFacts offline padded
      = [(facts_request (trim (topic padded)), s)] /\
      trace offline (fetchFacts padded)
      = [Did (SetError (lit "")); Did (SetLoading true); Did (SetFacts []);
         Sent (facts_request (trim (topic padded)))]
        ++ settle ++ [Did (SetLoading false)] /\
      loading s = true /\ submit_disabled s = true /\
      loading (handle fetchFacts offline padded) = false) /\
  (exists s settle,
      issued fetchMoreFacts dogs stale = [(more_request (topic stale), s)] /\
      trace dogs (fetchMoreFacts stale)
      = [Did (SetLoadingMore true); Sent (more_request (topic stale))]
        ++ settle ++ [Did (SetLoadingMore false)] /\
      loadingMore s = true /\ more_disabled s = true /\
      loadingMore (handle fetchMoreFacts dogs stale) = false) /\
  (exists s settle,
      issued getRandomWord ninja stale = [(random_request, s)] /\
      trace ninja (getRandomWord stale)
      = [Did (SetLoadingRandomWord true); Sent random_request]
        ++ settle ++ [Did (SetLoadingRandomWord false)] /\
      loadingRandomWord s = true /\ random_disabled s = true /\
      loadingRandomWord (handle getRandomWord ninja stale) = false) /\
  submit_disabled (mkState (lit "cats") [] true false false (lit "")) = true.
Proof.
  destruct (buttons_disabled_in_flight offline padded) as (_ & B & _).
  destruct (buttons_disabled_in_flight dogs stale) as (_ & _ & C & _).
  destruct (buttons_disabled_in_flight ninja stale) as (_ & _ & _ & D & _).
  destruct (buttons_disabled_in_flight dogs
              (mkState (lit "cats") [] true false false (lit "")))
    as ((A & _) & _).
  split; [reflexivity|]. split; [reflexivity|]. split; [reflexivity|].
  split; [apply B; vm_compute; lia|].
  split; [apply C; vm_compute; discriminate|].
  split; [exact D|].
  apply A. reflexivity.
Defined.

(* ================================================================== *)
(** ** Further properties: the built-ins *)
(* ================================================================== *)

Lemma trim_length (s : jsstring) : length (trim s) <= length s.
Proof.
  destruct (trim_spec s) as (l & r & E & _).
  apply (f_equal (@length N)) in E. rewrite !length_app in E. lia.
Qed.


Lemma starts_with_iff (pat s : jsstring) :
  starts_with pat s = true <-> exists post, s = pat ++ post.
Proof.
  revert s. induction pat as [|p pat IH]; intros s; simpl.
  - split; [now exists s | reflexivity].
  - destruct s as [|c s].
    + split; [discriminate | now intros [post [=]]].
    + rewrite andb_true_iff, N.eqb_eq, IH. split.
      * intros [-> [post ->]]. now exists post.
      * intros [post [= -> ->]]. split; [reflexivity | now exists post].
Qed.

(** [includes] finds the pattern wherever it occurs. *)
Lemma includes_iff (s pat : jsstring) :
  includes s pat = true <-> contains s pat.
Proof.
  unfold contains. induction s as [|c s IH].
  - simpl. rewrite orb_false_r, starts_with_iff. split.
    + intros [post E]. now exists [], post.
    + intros ([|x pre] & post & E); [now exists post | discriminate].
  - cbn [includes]. rewrite orb_true_iff, starts_with_iff, IH. split.
    + intros [[post E] | (pre & post & E)].
      * now exists [], post.
      * exists (c :: pre), post. simpl. now rewrite E.
    + intros ([|x pre] & post & E).
      * left. now exists post.
      * right. injection E as -> E. now exists pre, post.
Qed.

Lemma digit_not_space (c : N) : is_digit c = true -> is_space c = false.
Proof.
  unfold is_digit, is_space. intros H.
  apply andb_true_iff in H. destruct H as [H1 H2].
  apply N.leb_le in H1. apply N.leb_le in H2.
  repeat match goal with
         | |- context [(c =? ?k)%N] =>
           replace (c =? k)%N with false by (symmetry; apply N.eqb_neq; lia)
         end.
  replace (0x2000 <=? c)%N with false by (symmetry; apply N.leb_gt; lia).
  reflexivity.
Qed.

(** [has_separator] decides whether a separator occurs. *)
Lemma has_separator_false (s : jsstring) :
  has_separator s = false -> unnumbered s.
Proof.
  intros H pre. revert s H.
  induction pre as [|x pre IH]; intros s H sep post E Hsep.
  - simpl in E. subst s. destruct (sep ++ post) eqn:Es;
      unfold has_separator in H; fold has_separator in H;
      rewrite <- Es, (exec_numbering_complete post Hsep) in H;
      discriminate.
  - subst s. cbn [app has_separator] in H.
    destruct (exec numbering (x :: pre ++ sep ++ post) 0); [discriminate|].
    exact (IH _ H sep post eq_refl Hsep).
Qed.

(* ================================================================== *)
(** ** Further properties: the reshaping of a string payload *)
(* ================================================================== *)

(** Every segment is a piece of the string, and holds no separator. *)
Lemma split_on_segments (s : jsstring) (segs : list jsstring) :
  split_on s segs ->
  forall seg, In seg segs -> contains s seg /\ unnumbered seg.
Proof.
  induction 1 as [s Hnone | s pre sep post segs E Hsep Hleft Hrest IH];
    intros seg Hin.
  - destruct Hin as [<- | []]. split; [|exact Hnone].
    exists [], []. now rewrite app_nil_r.
  - destruct Hin as [<- | Hin].
    + split; [now exists [], (sep ++ post)|].
      intros a sep' b Ea Hsep'.
      assert (L : length pre <= length a).
      { apply (Hleft a sep' (b ++ sep ++ post)); auto.
        rewrite E, Ea, <- !app_assoc. reflexivity. }
      apply separator_nonempty in Hsep'.
      apply (f_equal (@length N)) in Ea. rewrite !length_app in Ea. lia.
    + destruct (IH _ Hin) as [(a & b & Ea) Hun]. split; auto.
      exists (pre ++ sep ++ a), b.
      rewrite E, Ea, <- !app_assoc. reflexivity.
Qed.

Lemma contains_trans (s t u : jsstring) :
  contains s t -> contains t u -> contains s u.
Proof.
  intros (a & b & ->) (c & d & ->). exists (a ++ c), (d ++ b).
  now rewrite <- !app_assoc.
Qed.

Lemma unnumbered_inside (s t : jsstring) :
  contains s t -> unnumbered s -> unnumbered t.
Proof.
  intros (a & b & ->) Hun pre sep post -> Hsep.
  apply (Hun (a ++ pre) sep (post ++ b)); auto.
  now rewrite <- !app_assoc.
Qed.

Lemma trim_inside (s : jsstring) : contains s (trim s).
Proof. destruct (trim_spec s) as (l & r & E & _). now exists l, r. Qed.

(** A fact read from a string payload is a piece of that payload: the
    reshaping never makes up text. *)
Theorem parsed_fact_is_excerpt (s t : jsstring) :
  In t (cleanFacts (FactsString s)) -> contains s t.
Proof.
  intros Hin. unfold cleanFacts in Hin.
  apply filter_In in Hin. destruct Hin as [Hin _].
  apply in_map_iff in Hin. destruct Hin as (seg & <- & Hin).
  destruct (split_on_segments (split_spec s) _ Hin) as [Hc _].
  exact (contains_trans Hc (trim_inside seg)).
Qed.

Lemma parsed_fact_is_excerpt_witness :
  contains (lit "1. Cats purr.  2. Cats nap. 3.  ") (lit "Cats nap.").
Proof.
  apply parsed_fact_is_excerpt. vm_compute. right. left. reflexivity.
Defined.

(** No fact read from a string payload still holds a numbering marker (a
    run of digits, a period and a whitespace character). *)
Theorem parsed_fact_has_no_numbering (s t : jsstring) :
  In t (cleanFacts (FactsString s)) -> unnumbered t.
Proof.
  intros Hin. unfold cleanFacts in Hin.
  apply filter_In in Hin. destruct Hin as [Hin _].
  apply in_map_iff in Hin. destruct Hin as (seg & <- & Hin).
  destruct (split_on_segments (split_spec s) _ Hin) as [_ Hun].
  exact (unnumbered_inside (trim_inside seg) Hun).
Qed.

Lemma parsed_fact_has_no_numbering_witness :
  unnumbered (lit "Cats nap.").
Proof.
  apply (@parsed_fact_has_no_numbering
           (lit "1. Cats purr.  2. Cats nap. 3.  ")).
  vm_compute. right. left. reflexivity.
Defined.

(** A string payload in which no numbering marker occurs is shown as one
    fact, the trimmed payload, or as no fact when it is blank. *)
Theorem unnumbered_payload_is_one_fact (s : jsstring) :
  unnumbered s ->
  cleanFacts (FactsString s) = if falsy (trim s) then [] else [trim s].
Proof.
  intros Hun.
  assert (E : split numbering s = [s]).
  { symmetry. apply split_on_iff. now apply split_whole. }
  unfold cleanFacts. rewrite E. simpl. now destruct (trim s).
Qed.

Lemma unnumbered_payload_is_one_fact_witness :
  cleanFacts (FactsString (lit "  Cats purr.  ")) = [lit "Cats purr."] /\
  cleanFacts (FactsString (lit "   ")) = [].
Proof.
  split.
  - rewrite unnumbered_payload_is_one_fact;
      [vm_compute; reflexivity | apply has_separator_false; reflexivity].
  - rewrite unnumbered_payload_is_one_fact;
      [vm_compute; reflexivity | apply has_separator_false; reflexivity].
Defined.

(* ================================================================== *)
(** ** Further properties: submitting a topic *)
(* ================================================================== *)

(** From here on literals are compared by name or by evaluation, not by
    unfolding their decoding. *)
Opaque lit.

(** [fetchFacts] reads nothing of the state but the topic. *)
Lemma fetchFacts_same_topic (a b : State) :
  topic a = topic b -> fetchFacts a = fetchFacts b.
Proof. intros E. unfold fetchFacts. rewrite E. reflexivity. Qed.

(** Every topic is either rejected with one message or accepted. *)
Lemma fetchFacts_verdict (st : State) :
  (exists message,
      fetchFacts st = SetError message ;; Return /\
      (length (trim (topic st)) = 0 /\ message = required_error \/
       length (trim (topic st)) = 1 /\ message = too_short_error \/
       50 < length (trim (topic st)) /\ message = too_long_error)) \/
  2 <= length (trim (topic st)) <= 50.
Proof.
  destruct (Nat.lt_ge_cases (length (trim (topic st))) 2) as [L|L];
    [|destruct (Nat.lt_ge_cases 50 (length (trim (topic st)))) as [L'|L']].
  - left. apply fetchFacts_rejects. now left.
  - left. apply fetchFacts_rejects. now right.
  - right. now split.
Qed.

Lemma messages_not_empty :
  falsy required_error = false /\ falsy too_short_error = false /\
  falsy too_long_error = false /\ falsy random_failed_error = false.
Proof. repeat conj_step. vm_compute. reflexivity. Qed.

Lemma messages_differ :
  required_error <> too_long_error /\ too_short_error <> too_long_error /\
  too_short_error <> required_error /\ lit "" <> too_long_error /\
  lit "" <> required_error.
Proof.
  split; [|split; [|split; [|split]]];
    intros H; vm_compute in H; discriminate H.
Qed.

(** Submitting twice against the same service leaves the state of
    submitting once, and so does asking twice for a random topic. *)
Theorem resubmit_is_idempotent (net : request -> outcome) (st : State) :
  handle fetchFacts net (handle fetchFacts net st)
  = handle fetchFacts net st /\
  handle getRandomWord net (handle getRandomWord net st)
  = handle getRandomWord net st.
Proof.
  split.
  - destruct (fetchFacts_verdict st) as [(m & E & _) | L].
    + destruct (handle_fetchFacts_rejected st net E) as (-> & _).
      assert (E' : fetchFacts (apply (SetError m) st) = SetError m ;; Return)
        by (rewrite <- E; now apply fetchFacts_same_topic).
      destruct (handle_fetchFacts_rejected _ net E') as (-> & _).
      reflexivity.
    + destruct (handle_fetchFacts_accepted st net L) as [-> _].
      match goal with
      | |- handle fetchFacts net ?st' = _ =>
        destruct (handle_fetchFacts_accepted st' net L) as [-> _]
      end.
      reflexivity.
  - destruct (handle_getRandomWord st net) as [-> _].
    destruct (ok_or_throw _ (net random_request)) eqn:E;
      match goal with
      | |- handle getRandomWord net ?st' = _ =>
        destruct (handle_getRandomWord st' net) as [-> _]
      end; rewrite E; reflexivity.
Qed.

(** A topic within the [maxLength] of the input is never reported as too
    long: it is sent, or rejected as empty or as too short. *)
Theorem typed_topic_never_too_long (net : request -> outcome) (st : State) :
  length (topic st) <= maxLength ->
  error (handle fetchFacts net st) <> too_long_error /\
  (map fst (issued fetchFacts net st) = [facts_request (trim (topic st))] \/
   issued fetchFacts net st = [] /\
   (error (handle fetchFacts net st) = required_error \/
    error (handle fetchFacts net st) = too_short_error)).
Proof.
  intros Hmax. pose proof (trim_length (topic st)) as Ht.
  unfold maxLength in Hmax.
  destruct messages_differ as (D1 & D2 & _ & D3 & _).
  destruct (fetchFacts_verdict st)
    as [(m & E & [[_ ->] | [[_ ->] | [L _]]]) | L]; [| | lia |].
  - destruct (handle_fetchFacts_rejected st net E) as (-> & _ & ->).
    cbn [error apply]. split; [exact D1 | right; split; [|left]; reflexivity].
  - destruct (handle_fetchFacts_rejected st net E) as (-> & _ & ->).
    cbn [error apply].
    split; [exact D2 | right; split; [|right]; reflexivity].
  - destruct (handle_fetchFacts_accepted st net L) as [-> ->].
    cbn [error]. split; [exact D3 | left; reflexivity].
Qed.

Lemma typed_topic_never_too_long_witness :
  error (handle fetchFacts dogs padded) <> too_long_error /\
  error (handle fetchFacts dogs one_letter) <> too_long_error.
Proof.
  split.
  - apply typed_topic_never_too_long. vm_compute. lia.
  - apply typed_topic_never_too_long. vm_compute. lia.
Defined.

(** While the submit button is enabled no request is in flight and a
    click never yields the required-field error: it sends the request or
    reports a topic that is too short or too long. *)
Theorem enabled_submit_has_a_topic (net : request -> outcome) (st : State) :
  submit_disabled st = false ->
  loading st = false /\
  error (handle fetchFacts net st) <> required_error /\
  (map fst (issued fetchFacts net st) = [facts_request (trim (topic st))] \/
   issued fetchFacts net st = [] /\
   (error (handle fetchFacts net st) = too_short_error \/
    error (handle fetchFacts net st) = too_long_error)).
Proof.
  unfold submit_disabled. intros H.
  apply orb_false_iff in H. destruct H as [Hl Ht].
  assert (Hn : length (trim (topic st)) <> 0)
    by (destruct (trim (topic st)); [discriminate | discriminate]).
  destruct messages_differ as (D1 & _ & D2 & _ & D3).
  split; [exact Hl|].
  destruct (fetchFacts_verdict st)
    as [(m & E & [[L _] | [[_ ->] | [_ ->]]]) | L]; [lia | | |].
  - destruct (handle_fetchFacts_rejected st net E) as (-> & _ & ->).
    cbn [error apply].
    split; [exact D2 | right; split; [|left]; reflexivity].
  - destruct (handle_fetchFacts_rejected st net E) as (-> & _ & ->).
    cbn [error apply].
    split; [intros X; symmetry in X; exact (D1 X)
           | right; split; [|right]; reflexivity].
  - destruct (handle_fetchFacts_accepted st net L) as [-> ->].
    cbn [error]. split; [exact D3 | left; reflexivity].
Qed.

Lemma enabled_submit_has_a_topic_witness :
  error (handle fetchFacts dogs one_letter) <> required_error /\
  error (handle fetchFacts dogs overlong) <> required_error.
Proof.
  split.
  - apply enabled_submit_has_a_topic. vm_compute. reflexivity.
  - apply enabled_submit_has_a_topic. vm_compute. reflexivity.
Defined.

(** A response that is not ok and carries no error text, or an empty one,
    is reported by the three fallback strings. *)
Theorem missing_error_text_gives_fallback (net : request -> outcome)
    (st : State) (data : payload) :
  2 <= length (trim (topic st)) <= 50 ->
  net (facts_request (trim (topic st))) = Resolved false data ->
  data_error data = None \/ data_error data = Some (lit "") ->
  facts (handle fetchFacts net st) = fallback_facts.
Proof.
  intros L E Herr.
  destruct (handle_fetchFacts_accepted st net L) as [-> _].
  cbn [facts]. unfold facts_after, ok_or_throw. rewrite E. cbn [negb].
  assert (M : or_else (data_error data) (lit "Failed to fetch facts")
              = lit "Failed to fetch facts").
  { destruct Herr as [-> | ->]; vm_compute; reflexivity. }
  rewrite M. vm_compute. reflexivity.
Qed.

Lemma missing_error_text_gives_fallback_witness :
  facts (handle fetchFacts silent padded) = fallback_facts /\
  facts (handle fetchFacts hushed padded) = fallback_facts.
Proof.
  split.
  - apply (@missing_error_text_gives_fallback silent padded
             (facts_payload FactsOther));
      [vm_compute; lia | reflexivity | left; reflexivity].
  - apply (@missing_error_text_gives_fallback hushed padded
             (error_payload (lit "")));
      [vm_compute; lia | reflexivity | right; reflexivity].
Defined.

Lemma canned_facts_differ :
  server_issue_facts <> rate_limit_facts /\
  fallback_facts <> rate_limit_facts /\
  fallback_facts <> server_issue_facts.
Proof.
  split; [|split]; intros H; vm_compute in H; discriminate H.
Qed.

Lemma three_way (A : Type) (R S F : A) (p q : bool) :
  S <> R -> F <> R -> F <> S ->
  ((if p then R else if q then S else F) = R <-> p = true) /\
  ((if p then R else if q then S else F) = S <-> p <> true /\ q = true).
Proof.
  intros D1 D2 D3. destruct p, q; intuition congruence.
Qed.

Lemma either_phrase (message a b : jsstring) :
  includes message a || includes message b = true <->
  contains message a \/ contains message b.
Proof. now rewrite orb_true_iff, !includes_iff. Qed.

(** The catch block of submit-topic looks for its four phrases anywhere in
    the error message, the rate-limit pair first: the rate-limit string is
    shown exactly when "429" or "Too many requests" occurs, the
    server-issue string exactly when neither does and "500" or "Something
    went wrong" occurs. *)
Theorem error_phrases_anywhere (net : request -> outcome) (st : State)
    (message : jsstring) :
  2 <= length (trim (topic st)) <= 50 ->
  net (facts_request (trim (topic st))) = Rejected message ->
  (facts (handle fetchFacts net st) = rate_limit_facts <->
   contains message (lit "429")
   \/ contains message (lit "Too many requests")) /\
  (facts (handle fetchFacts net st) = server_issue_facts <->
   ~ (contains message (lit "429")
      \/ contains message (lit "Too many requests")) /\
   (contains message (lit "500")
    \/ contains message (lit "Something went wrong"))).
Proof.
  intros L E.
  destruct (handle_fetchFacts_accepted st net L) as [-> _].
  cbn [facts]. unfold facts_after, ok_or_throw. rewrite E.
  unfold facts_for_error.
  destruct canned_facts_differ as (D1 & D2 & D3).
  rewrite <- !either_phrase.
  apply three_way; assumption.
Qed.

Lemma error_phrases_anywhere_witness :
  (facts (handle fetchFacts
            (serve (Rejected (lit "HTTP 500 after 429"))) padded)
   = rate_limit_facts <->
   contains (lit "HTTP 500 after 429") (lit "429")
   \/ contains (lit "HTTP 500 after 429") (lit "Too many requests")).
Proof.
  apply (@error_phrases_anywhere
           (serve (Rejected (lit "HTTP 500 after 429"))) padded
           (lit "HTTP 500 after 429"));
    [vm_compute; lia | reflexivity].
Defined.

(** After a failed submit the facts are one or three canned strings, so
    the panel of facts and its More button are on display, and no error
    alert is. *)
Theorem failed_submit_offers_more (net : request -> outcome) (st : State)
    (message : jsstring) :
  2 <= length (trim (topic st)) <= 50 ->
  ok_or_throw (lit "Failed to fetch facts")
              (net (facts_request (trim (topic st)))) = inl message ->
  (length (facts (handle fetchFacts net st)) = 1 \/
   length (facts (handle fetchFacts net st)) = 3) /\
  facts_panel_rendered (handle fetchFacts net st) = true /\
  more_button_rendered (handle fetchFacts net st) = true /\
  error_shown (handle fetchFacts net st) = false.
Proof.
  intros L E.
  destruct (handle_fetchFacts_accepted st net L) as [-> _].
  unfold more_button_rendered, more_rendered, facts_panel_rendered,
    error_shown.
  cbn [facts error]. unfold facts_after. rewrite E. unfold facts_for_error.
  destruct (includes message (lit "429")
            || includes message (lit "Too many requests"));
    [|destruct (includes message (lit "500")
                || includes message (lit "Something went wrong"))];
    (split; [first [left; vm_compute; reflexivity
                   | right; vm_compute; reflexivity]
            | repeat conj_step; vm_compute; reflexivity]).
Qed.

Lemma failed_submit_offers_more_witness :
  more_button_rendered (handle fetchFacts offline padded) = true /\
  length (facts (handle fetchFacts busy padded)) = 1.
Proof.
  destruct (@failed_submit_offers_more offline padded
              (lit "Failed to fetch")) as (_ & _ & M & _);
    [vm_compute; lia | vm_compute; reflexivity |].
  destruct (@failed_submit_offers_more busy padded
              (lit "429 Too many requests")) as ([One | Three] & _);
    [vm_compute; lia | vm_compute; reflexivity | |].
  - split; [exact M | exact One].
  - vm_compute in Three. discriminate Three.
Defined.

(** A topic of whitespace only is refused by submit-topic, which tests the
    trimmed topic, and still sent by load-more, which tests the topic as
    it is. *)
Theorem blank_topic_still_loads_more (net : request -> outcome)
    (st : State) :
  topic st <> [] -> trim (topic st) = [] ->
  issued fetchFacts net st = [] /\
  map fst (issued fetchMoreFacts net st) = [more_request (topic st)] /\
  body_field "topic" (more_request (topic st)) = Some (JString (topic st)).
Proof.
  intros Hne Ht.
  destruct (handle_fetchFacts_rejected st net (fetchFacts_required st Ht))
    as (_ & _ & ->).
  destruct (handle_fetchMoreFacts_sent st net Hne) as [_ ->].
  repeat split.
Qed.

Lemma blank_topic_still_loads_more_witness :
  issued fetchFacts dogs blank = [] /\
  map fst (issued fetchMoreFacts dogs blank) = [more_request (lit "   ")].
Proof.
  destruct (@blank_topic_still_loads_more dogs blank) as (A & B & _);
    [vm_compute; discriminate | vm_compute; reflexivity |].
  split; [exact A | exact B].
Defined.

(* ================================================================== *)
(** ** Further properties: the keyboard *)
(* ================================================================== *)

Lemma handleKeyPress_enter (st : State) :
  handleKeyPress (lit "Enter") st = fetchFacts st.
Proof.
  unfold handleKeyPress.
  replace (str_eqb (lit "Enter") (lit "Enter")) with true
    by (vm_compute; reflexivity).
  reflexivity.
Qed.

(** Enter submits a valid topic also while a request is in flight, when the
    submit button is disabled. *)
Theorem enter_submits_while_loading (net : request -> outcome)
    (st : State) :
  loading st = true ->
  2 <= length (trim (topic st)) <= 50 ->
  submit_disabled st = true /\
  map fst (issued (handleKeyPress (lit "Enter")) net st)
  = [facts_request (trim (topic st))].
Proof.
  intros Hl L. split.
  - unfold submit_disabled. now rewrite Hl.
  - unfold issued. rewrite handleKeyPress_enter.
    destruct (handle_fetchFacts_accepted st net L) as [_ I].
    unfold issued in I. rewrite I. reflexivity.
Qed.

Lemma enter_submits_while_loading_witness :
  submit_disabled submitting = true /\
  map fst (issued (handleKeyPress (lit "Enter")) dogs submitting)
  = [facts_request (trim (topic submitting))].
Proof.
  apply enter_submits_while_loading; [reflexivity | vm_compute; lia].
Defined.



(* ================================================================== *)
(** ** Further properties: load-more and the rendered facts *)
(* ================================================================== *)

(** Load-more never shortens the facts; a More button that is hidden
    because more than five facts are on display stays hidden. *)
Theorem load_more_never_shrinks (net : request -> outcome) (st : State) :
  length (facts st) <= length (facts (handle fetchMoreFacts net st)) /\
  (5 < length (facts st) ->
   more_button_rendered st = false /\
   more_button_rendered (handle fetchMoreFacts net st) = false).
Proof.
  assert (G : length (facts st)
              <= length (facts (handle fetchMoreFacts net st))).
  { destruct (list_eq_dec N.eq_dec (topic st) []) as [E|Hne].
    - destruct (handle_fetchMoreFacts_idle st net E) as (_ & -> & _). lia.
    - destruct (handle_fetchMoreFacts_sent st net Hne) as [-> _].
      cbn [facts]. rewrite length_app. lia. }
  split; [exact G|]. intros L.
  unfold more_button_rendered, more_rendered.
  split; apply andb_false_iff; right; apply andb_false_iff; left;
    apply Nat.leb_gt; lia.
Qed.

Lemma load_more_never_shrinks_witness :
  more_button_rendered six_facts = false /\
  more_button_rendered (handle fetchMoreFacts dogs six_facts) = false.
Proof.
  destruct (load_more_never_shrinks dogs six_facts) as [_ H].
  apply H. vm_compute. lia.
Defined.

(** What each handler leaves alone: submit-topic the topic and the other
    two loading flags, load-more the topic, the error message and the
    other two loading flags, random-topic the facts and the other two
    loading flags. *)
Theorem handlers_leave_alone (net : request -> outcome) (st : State) :
  (topic (handle fetchFacts net st) = topic st /\
   loadingMore (handle fetchFacts net st) = loadingMore st /\
   loadingRandomWord (handle fetchFacts net st) = loadingRandomWord st) /\
  (topic (handle fetchMoreFacts net st) = topic st /\
   error (handle fetchMoreFacts net st) = error st /\
   loading (handle fetchMoreFacts net st) = loading st /\
   loadingRandomWord (handle fetchMoreFacts net st)
   = loadingRandomWord st) /\
  (facts (handle getRandomWord net st) = facts st /\
   loading (handle getRandomWord net st) = loading st /\
   loadingMore (handle getRandomWord net st) = loadingMore st).
Proof.
  split; [|split].
  - destruct (fetchFacts_verdict st) as [(m & E & _) | L].
    + destruct (handle_fetchFacts_rejected st net E) as (-> & _).
      repeat split.
    + destruct (handle_fetchFacts_accepted st net L) as [-> _].
      repeat split.
  - destruct (list_eq_dec N.eq_dec (topic st) []) as [E|Hne].
    + destruct (handle_fetchMoreFacts_idle st net E) as (_ & -> & _).
      repeat split.
    + destruct (handle_fetchMoreFacts_sent st net Hne) as [-> _].
      repeat split.
  - destruct (handle_getRandomWord st net) as [-> _].
    destruct (ok_or_throw _ (net random_request)); repeat split.
Qed.

Lemma render_from_app (a b : list jsstring) :
  forall idx,
    render_from idx (a ++ b)
    = render_from idx a ++ render_from (idx + length a) b.
Proof.
  induction a as [|x a IH]; intros idx; cbn [render_from app length].
  - now rewrite Nat.add_0_r.
  - rewrite IH.
    now replace (idx + S (length a)) with (S idx + length a) by lia.
Qed.

Lemma render_from_badges (fs : list jsstring) :
  forall idx,
    map card_badge (render_from idx fs) = seq (idx + 1) (length fs) /\
    map card_key (render_from idx fs) = seq idx (length fs) /\
    map card_text (render_from idx fs) = fs.
Proof.
  induction fs as [|f fs IH]; intros idx;
    cbn [render_from map length seq card_badge card_key card_text]; auto.
  destruct (IH (S idx)) as (B & K & T). rewrite B, K, T.
  now replace (S idx + 1) with (S (idx + 1)) by lia.
Qed.

(** The cards are numbered 1, 2, ... in the order of the facts, keyed by
    their index, and load-more leaves the cards already on display as they
    are: it only adds cards after them. *)
Theorem cards_numbered_and_stable (net : request -> outcome) (st : State) :
  map card_badge (render_facts (facts st)) = seq 1 (length (facts st)) /\
  map card_key (render_facts (facts st)) = seq 0 (length (facts st)) /\
  map card_text (render_facts (facts st)) = facts st /\
  exists added,
    render_facts (facts (handle fetchMoreFacts net st))
    = render_facts (facts st) ++ added.
Proof.
  destruct (render_from_badges (facts st) 0) as (B & K & T).
  unfold render_facts. repeat split; auto.
  destruct (list_eq_dec N.eq_dec (topic st) []) as [E|Hne].
  - destruct (handle_fetchMoreFacts_idle st net E) as (_ & -> & _).
    exists []. now rewrite app_nil_r.
  - destruct (handle_fetchMoreFacts_sent st net Hne) as [-> _].
    cbn [facts]. rewrite render_from_app. now eexists.
Qed.

Lemma mod2_even (idx : nat) : (idx mod 2 =? 0) = Nat.even idx.
Proof.
  destruct (Nat.even idx) eqn:Ev.
  - apply Nat.even_spec in Ev. destruct Ev as [k ->].
    now rewrite Nat.mul_comm, Nat.Div0.mod_mul.
  - assert (Od : Nat.odd idx = true) by (unfold Nat.odd; now rewrite Ev).
    apply Nat.odd_spec in Od. destruct Od as [k ->].
    now rewrite Nat.add_comm, Nat.mul_comm, Nat.Div0.mod_add.
Qed.

Lemma render_from_cons (idx : nat) (f : jsstring) (fs : list jsstring) :
  render_from idx (f :: fs)
  = mkCard idx (idx + 1) (if Nat.even idx then Primary else Yellow) f
      :: render_from (S idx) fs.
Proof. cbn [render_from]. now rewrite mod2_even. Qed.

(** The colours of the cards alternate, the first one being primary. *)
Theorem card_colours_alternate (fs : list jsstring) (i : nat)
    (card : fact_card) :
  nth_error (render_facts fs) i = Some card ->
  card_accent card = (if Nat.even i then Primary else Yellow) /\
  card_badge card = i + 1 /\
  nth_error fs i = Some (card_text card).
Proof.
  unfold render_facts.
  assert (G : forall fs idx i card,
             nth_error (render_from idx fs) i = Some card ->
             card_accent card
             = (if Nat.even (idx + i) then Primary else Yellow) /\
             card_badge card = idx + i + 1 /\
             nth_error fs i = Some (card_text card)).
  { clear. induction fs as [|f fs IH]; intros idx [|i] card H;
      try discriminate; rewrite render_from_cons in H;
      cbn [nth_error] in H.
    - injection H as <-. cbn [card_accent card_badge card_text nth_error].
      rewrite Nat.add_0_r. repeat split.
    - destruct (IH (S idx) i card H) as (A & B & T).
      replace (idx + S i) with (S idx + i) by lia. auto. }
  intros H. exact (G fs 0 i card H).
Qed.

Lemma card_colours_alternate_witness :
  card_accent (mkCard 1 2 Yellow (lit "two")) = Yellow /\
  card_badge (mkCard 1 2 Yellow (lit "two")) = 2.
Proof.
  destruct (@card_colours_alternate (facts six_facts) 1
              (mkCard 1 2 Yellow (lit "two"))) as (A & B & _).
  - reflexivity.
  - split; [exact A | exact B].
Defined.

(* ================================================================== *)
(** ** Further properties: the error alert *)
(* ================================================================== *)

(** Every rejection of a topic puts the error alert on display and the
    input border in red; an accepted topic has the alert hidden by the
    time the request is sent and when the handler is done, whatever the
    outcome. A failed random-topic request puts the alert on display. *)
Theorem rejection_shows_alert (net : request -> outcome) (st : State) :
  (length (trim (topic st)) < 2 \/ 50 < length (trim (topic st)) ->
   error_shown (handle fetchFacts net st) = true /\
   input_border (handle fetchFacts net st) = "#ef4444"%string) /\
  (2 <= length (trim (topic st)) <= 50 ->
   error_shown (handle fetchFacts net st) = false /\
   forall r s, In (r, s) (issued fetchFacts net st) ->
               error_shown s = false) /\
  (forall message,
      ok_or_throw (lit "Failed to get random word") (net random_request)
      = inl message ->
      error_shown (handle getRandomWord net st) = true).
Proof.
  destruct messages_not_empty as (N1 & N2 & N3 & N4).
  assert (E0 : falsy (lit "") = true) by (vm_compute; reflexivity).
  unfold error_shown, input_border.
  split; [|split].
  - intros L.
    destruct (fetchFacts_rejects st L)
      as (m & E & [[_ ->] | [[_ ->] | [_ ->]]]);
      destruct (handle_fetchFacts_rejected st net E) as (-> & _);
      cbn [error apply].
    + now rewrite N1.
    + now rewrite N2.
    + now rewrite N3.
  - intros L. destruct (handle_fetchFacts_accepted st net L) as [-> ->].
    cbn [error]. rewrite E0. split; [reflexivity|].
    intros r s [[= _ <-] | []]. cbn [error]. now rewrite E0.
  - intros message E. destruct (handle_getRandomWord st net) as [-> _].
    rewrite E. cbn [error]. now rewrite N4.
Qed.

Lemma rejection_shows_alert_witness :
  error_shown (handle fetchFacts dogs one_letter) = true /\
  error_shown (handle fetchFacts offline padded) = false /\
  error_shown (handle getRandomWord offline padded) = true.
Proof.
  destruct (rejection_shows_alert dogs one_letter) as (A & _).
  destruct (rejection_shows_alert offline padded) as (_ & B & C).
  split; [|split].
  - apply A. left. vm_compute. lia.
  - apply B. vm_compute. lia.
  - apply (C (lit "Failed to fetch")). vm_compute. reflexivity.
Defined.
